(** * Field-data processing: tilt loggers, snow-depth sensors and their merge

    A shallow embedding of [field_data/process_tilt.py],
    [field_data/process_snow.py] and [field_data/merge_datasets.py].

    Conventions of the embedding.
    - A [float64] cell is an [option R]: [None] is NaN (a missing value), and
      [Some x] is a finite reading.  Arithmetic is the arithmetic of the reals
      (rounding and infinities are left out); NaN propagates through every
      operation and every comparison with NaN is false, as in numpy.
    - A timestamp is the number of nanoseconds since 1970-01-01, as pandas
      stores it; [None] in an index is [NaT].
    - A data frame is the list of its rows in frame order: the index value of
      the row and one field per column.
    - Python exceptions are the [Raise] results of the [result] type.
    - pandas runs without copy-on-write, as the chained assignments of the
      sources ([frame.col.loc[...] = v]) need in order to reach the frame. *)

From Stdlib Require Import ZArith Reals Lra Lia List String Bool Sorted.
Import ListNotations.

Open Scope Z_scope.
Open Scope R_scope.
Open Scope string_scope.

(** ** Cells, NaN and element-wise arithmetic *)

Definition float := option R.

Definition NaN : float := None.

Definition isna (x : float) : bool :=
  match x with None => true | Some _ => false end.

Definition notna (x : float) : bool := negb (isna x).

Definition lift2 (f : R -> R -> R) (x y : float) : float :=
  match x, y with
  | Some a, Some b => Some (f a b)
  | _, _ => None
  end.

Definition fadd : float -> float -> float := lift2 Rplus.
Definition fsub : float -> float -> float := lift2 Rminus.
Definition fmul : float -> float -> float := lift2 Rmult.

Definition fmap (f : R -> R) (x : float) : float :=
  match x with Some a => Some (f a) | None => None end.

(** [np.sqrt]: NaN below zero. *)
Definition np_sqrt (x : float) : float :=
  match x with
  | Some a => if Rlt_dec a 0 then None else Some (sqrt a)
  | None => None
  end.

Definition np_sin : float -> float := fmap sin.
Definition np_cos : float -> float := fmap cos.

(** [x ** 2] *)
Definition fsqr (x : float) : float := fmap (fun a => a ^ 2) x.

(** [x < c] and [x > c]: false on NaN. *)
Definition flt (x : float) (c : R) : bool :=
  match x with
  | Some a => if Rlt_dec a c then true else false
  | None => false
  end.

Definition fgt (x : float) (c : R) : bool :=
  match x with
  | Some a => if Rlt_dec c a then true else false
  | None => false
  end.

(** [s[s.isna()] = 0] on one cell. *)
Definition fillna0 (x : float) : float :=
  match x with None => Some 0 | Some a => Some a end.

(** Element-wise binary operation of two series of one index. *)
Fixpoint zip_with {A B C} (f : A -> B -> C) (l : list A) (m : list B) : list C :=
  match l, m with
  | a :: l', b :: m' => f a b :: zip_with f l' m'
  | _, _ => []
  end.

(** ** Exceptions *)

(** The Python exceptions the modelled code raises, and [EmptySeriesError],
    the error kind the specification names for a series without a baseline
    (no statement of the sources raises it). *)
Inductive exn : Set :=
| KeyError
| IndexError
| EmptySeriesError.

Inductive result (A : Type) : Type :=
| Ok (a : A)
| Raise (e : exn).

Arguments Ok {A} a.
Arguments Raise {A} e.

Definition bind {A B} (m : result A) (k : A -> result B) : result B :=
  match m with
  | Ok a => k a
  | Raise e => Raise e
  end.

Notation "x <- m ;; k" := (bind m (fun x => k))
  (at level 61, m at next level, right associativity).

(** ** Dictionaries *)

(** A Python [dict] with string keys, in insertion order. *)
Definition dict (V : Type) := list (string * V).

Fixpoint dict_find {V} (d : dict V) (k : string) : option V :=
  match d with
  | [] => None
  | (k', v) :: d' => if String.eqb k' k then Some v else dict_find d' k
  end.

(** [d[k]] *)
Definition getitem {V} (d : dict V) (k : string) : result V :=
  match dict_find d k with
  | Some v => Ok v
  | None => Raise KeyError
  end.

(** ** Timestamps *)

Definition timestamp := Z.

(** Days from 1970-01-01 to the civil date [y]-[m]-[d]. *)
Definition days_from_civil (y m d : Z) : Z :=
  let y' := if (m <=? 2)%Z then (y - 1)%Z else y in
  let era := (y' / 400)%Z in
  let yoe := (y' - era * 400)%Z in
  let mp := if (2 <? m)%Z then (m - 3)%Z else (m + 9)%Z in
  let doy := ((153 * mp + 2) / 5 + d - 1)%Z in
  let doe := (yoe * 365 + yoe / 4 - yoe / 100 + doy)%Z in
  (era * 146097 + doe - 719468)%Z.

Definition ns_per_day : Z := 86400000000000%Z.

(** [pd.to_datetime('y-m-d')] *)
Definition to_datetime (y m d : Z) : timestamp :=
  (days_from_civil y m d * ns_per_day)%Z.

(** ** Sorting an index *)

(** [frame.sort_index()]: rows in ascending index order.  Rows of equal index
    keep their relative order. *)
Section SortIndex.
Context {A : Type} (key : A -> Z).

Fixpoint insert_row (x : A) (l : list A) : list A :=
  match l with
  | [] => [x]
  | y :: l' => if (key y <? key x)%Z then y :: insert_row x l' else x :: l
  end.

Fixpoint sort_index_by (l : list A) : list A :=
  match l with
  | [] => []
  | x :: l' => insert_row x (sort_index_by l')
  end.
End SortIndex.

(** ** process_tilt.py *)

Module ProcessTilt.

(** Analysis period. *)
Definition start_date : timestamp := to_datetime 2018 8 27.
Definition end_date : timestamp := to_datetime 2023 8 1.

(** Inclinometer parameters, in mm. *)
Definition arm_length : dict R :=
  [("site_1", 1470); ("site_2", 1490); ("site_3", 1520);
   ("site_4", 1575); ("site_5", 1590); ("site_6", 1750)].

Definition pivot_height : dict R :=
  [("site_1", 120); ("site_2", 140); ("site_3", 140);
   ("site_4", 385); ("site_5", 495); ("site_6", 360)].

(** A row of the frame [importData] returns. *)
Record data_row : Type := mk_data {
  index : timestamp;
  angle_1 : float;
  angle_2 : float;
  logger_temp_c : float
}.

(** A row of [out] before and after the [dh1_mm] column is added. *)
Record row : Type := mk_row {
  r_index : timestamp;
  r_logger_temp_c : float;
  r_h1_mm : float
}.

Record out_row : Type := mk_out {
  o_index : timestamp;
  o_logger_temp_c : float;
  o_h1_mm : float;
  o_dh1_mm : float
}.

(** The body of [convertAngles] on a series of angles, with the two
    module-level tables it reads as arguments. *)
Definition convertAngles_in (arm_length pivot_height : dict R)
    (angle_rads : list float) (site : string) (flip : bool)
    : result (list float) :=
  L <- getitem arm_length site ;;
  let dYL := map (fun a => fmul (np_sin a) (Some L)) angle_rads in
  let dYL := if flip then map (fun y => fmul (Some (-1)) y) dYL else dYL in
  L' <- getitem arm_length site ;;
  let dX := map (fun a => fmul (fsub (Some 1) (np_cos a)) (Some L')) angle_rads in
  P <- getitem pivot_height site ;;
  let dYP := map (fun x => np_sqrt (fsub (Some (P ^ 2)) (fsqr x))) dX in
  let dY := zip_with fadd dYL dYP in
  Ok dY.

Definition convertAngles : list float -> string -> bool -> result (list float) :=
  convertAngles_in arm_length pivot_height.

(** [s.iloc[0]] *)
Definition iloc0 {A} (s : list A) : result A :=
  match s with
  | x :: _ => Ok x
  | [] => Raise IndexError
  end.

(** [out[out.isna()] = 0] *)
Definition fill_zero (r : row) : row :=
  mk_row (r_index r) (fillna0 (r_logger_temp_c r)) (fillna0 (r_h1_mm r)).

(** [out.h1_mm.loc[out.logger_temp_c < -35] = np.nan] *)
Definition drop_cold (r : row) : row :=
  if flt (r_logger_temp_c r) (-35)
  then mk_row (r_index r) (r_logger_temp_c r) NaN
  else r.

(** [processData] on the frame [importData] read; [site] is the directory
    name taken from the path of the file. *)
Definition processData (data : list data_row) (site : string)
    : result (list out_row) :=
  h1 <- convertAngles (map angle_1 data) site false ;;
  let out := zip_with (fun d h => mk_row (index d) (logger_temp_c d) h) data h1 in
  let out := map fill_zero out in
  let out := sort_index_by r_index out in
  let out := filter (fun r => (start_date <=? r_index r)%Z) out in
  let out := filter (fun r => (r_index r <=? end_date)%Z) out in
  let out := map drop_cold out in
  base <- iloc0 (filter notna (map r_h1_mm out)) ;;
  Ok (map (fun r => mk_out (r_index r) (r_logger_temp_c r) (r_h1_mm r)
                           (fsub (r_h1_mm r) base)) out).

(** The baseline in the words of the specification: the first available
    absolute deflection of the whole series, before any truncation. *)
Definition baseline_of_whole_series (data : list data_row) (site : string)
    : result float :=
  h1 <- convertAngles (map angle_1 data) site false ;;
  iloc0 (filter notna h1).

End ProcessTilt.

(** ** Series and left joins *)

(** A pandas [Series] with a timestamp index. *)
Definition series := list (timestamp * float).

(** First cell at label [t], if any.  The frames handled here have a unique
    index, where this is the scalar [s.loc[t]]. *)
Fixpoint lookup (s : series) (t : timestamp) : option float :=
  match s with
  | [] => None
  | (i, v) :: s' => if (i =? t)%Z then Some v else lookup s' t
  end.

(** [s.loc[t]] *)
Definition loc (s : series) (t : timestamp) : result float :=
  match lookup s t with
  | Some v => Ok v
  | None => Raise KeyError
  end.

(** [s - b], [s * c] and [s[np.isnan(s)] = 0] *)
Definition sub_scalar (s : series) (b : float) : series :=
  map (fun iv => (fst iv, fsub (snd iv) b)) s.

Definition mul_scalar (s : series) (c : R) : series :=
  map (fun iv => (fst iv, fmul (snd iv) (Some c))) s.

Definition nan_to_zero (s : series) : series :=
  map (fun iv => (fst iv, fillna0 (snd iv))) s.

(** [s1 - s2] for two series of one index. *)
Definition sub_series (s1 s2 : series) : series :=
  zip_with (fun a b => (fst a, fsub (snd a) (snd b))) s1 s2.

(** [left.merge(right, how='left', left_index=True, right_index=True)]: the
    rows of [left] in order, each with every row of [right] of the same index,
    or with none when [right] has no such row. *)
Definition merge_left {A B} (kl : A -> timestamp) (kr : B -> timestamp)
    (left : list A) (right : list B) : list (A * option B) :=
  flat_map (fun a =>
              match filter (fun b => (kr b =? kl a)%Z) right with
              | [] => [(a, None)]
              | bs => map (fun b => (a, Some b)) bs
              end) left.

(** ** process_snow.py *)

Module ProcessSnow.

(** Snow on ground dates, by season. *)
Definition snow_on_ground : dict (timestamp * timestamp) :=
  [("2019", (to_datetime 2019 10 5, to_datetime 2020 5 23));
   ("2020", (to_datetime 2020 10 9, to_datetime 2021 5 14));
   ("2021", (to_datetime 2021 9 27, to_datetime 2022 5 10));
   ("2022", (to_datetime 2022 9 27, to_datetime 2023 6 1))].

(** A row of the snow frame [sdf] handed to [correct_for_heave]. *)
Record snow_row : Type := mk_snow {
  s_index : timestamp;
  s_snow_depth_cm : float
}.

(** A row of the processed inclinometer frame [tdf]. *)
Record tilt_row : Type := mk_tilt {
  t_index : timestamp;
  t_dh1_mm : float
}.

(** A row of [sdf_copy]. *)
Record copy_row : Type := mk_copy {
  c_index : timestamp;
  c_snow_depth_cm : float;
  c_dh1_mm : float
}.

(** A row of [sdf] while the seasons are written into it, and of the frame
    returned.  Column [heave_cm] exists from the first season on; before
    that its cells read as NaN. *)
Record sdf_row : Type := mk_sdf {
  index : timestamp;
  snow_depth_cm : float;
  snow_sub_heave : float;
  heave_cm : float
}.

Definition snow_depth_col (f : list copy_row) : series :=
  map (fun r => (c_index r, c_snow_depth_cm r)) f.

Definition dh1_col (f : list copy_row) : series :=
  map (fun r => (c_index r, c_dh1_mm r)) f.

(** [sdf_copy]: the copy of [sdf] with the heave of each date that has a
    tilt measurement. *)
Definition with_heave (sdf : list snow_row) (tdf : list tilt_row) : list copy_row :=
  map (fun r =>
         mk_copy (s_index r) (s_snow_depth_cm r)
           (match lookup (map (fun t => (t_index t, t_dh1_mm t)) tdf) (s_index r) with
            | Some v => v
            | None => NaN
            end)) sdf.

(** [sdf] after [sdf.snow_depth_cm = np.nan] and
    [sdf['snow_sub_heave'] = np.nan]. *)
Definition blank (sdf : list snow_row) : list sdf_row :=
  map (fun r => mk_sdf (s_index r) NaN NaN NaN) sdf.

(** The rows of [sdf_copy] of one season. *)
Definition season (site year : string) (w : timestamp * timestamp)
    (sdf_copy : list copy_row) : list copy_row :=
  let season := filter (fun r => (fst w <=? c_index r)%Z) sdf_copy in
  let season := filter (fun r => (c_index r <? snd w)%Z) season in
  if (String.eqb site "site_2" && String.eqb year "2019")%bool
  then filter (fun r => (c_index r <? to_datetime 2020 4 12)%Z) season
  else season.

(** The body of the [try]: zero snow depth and heave at the beginning of the
    season. *)
Definition zero_at_start (season : list copy_row) (start : timestamp)
    : result (series * series) :=
  sd0 <- loc (snow_depth_col season) start ;;
  let corrected_sd := sub_scalar (snow_depth_col season) sd0 in
  dh0 <- loc (dh1_col season) start ;;
  let corrected_dh := sub_scalar (dh1_col season) dh0 in
  Ok (corrected_sd, corrected_dh).

(** [try: ... except: ...], giving [(corrected_sd, corrected_dh)]. *)
Definition corrected (season : list copy_row) (start : timestamp)
    : series * series :=
  match zero_at_start season start with
  | Ok p => p
  | Raise _ => (snow_depth_col season, dh1_col season)
  end.

(** [sdf['snow_depth_cm'].loc[s.index] = s] *)
Definition store_snow_depth (s : series) (sdf : list sdf_row) : list sdf_row :=
  map (fun r => match lookup s (index r) with
                | Some v => mk_sdf (index r) v (snow_sub_heave r) (heave_cm r)
                | None => r
                end) sdf.

(** [sdf['snow_sub_heave'].loc[s.index] = s] *)
Definition store_snow_sub_heave (s : series) (sdf : list sdf_row) : list sdf_row :=
  map (fun r => match lookup s (index r) with
                | Some v => mk_sdf (index r) (snow_depth_cm r) v (heave_cm r)
                | None => r
                end) sdf.

(** [sdf['heave_cm'] = s]: the whole column, NaN where [s] has no label. *)
Definition set_heave (s : series) (sdf : list sdf_row) : list sdf_row :=
  map (fun r => mk_sdf (index r) (snow_depth_cm r) (snow_sub_heave r)
                  (match lookup s (index r) with
                   | Some v => v
                   | None => NaN
                   end)) sdf.

(** [sdf.loc[sdf.snow_depth_cm < 0] = np.nan] *)
Definition null_negative (r : sdf_row) : sdf_row :=
  if flt (snow_depth_cm r) 0 then mk_sdf (index r) NaN NaN NaN else r.

(** The body of the loop over the seasons. *)
Definition season_step (site : string) (sdf_copy : list copy_row)
    (sdf : list sdf_row) (yw : string * (timestamp * timestamp)) : list sdf_row :=
  let (year, w) := yw in
  let season := season site year w sdf_copy in
  let (corrected_sd, corrected_dh) := corrected season (fst w) in
  let dh_copy := corrected_dh in
  let dh_copy := mul_scalar dh_copy (1 / 10) in
  let dh_copy := nan_to_zero dh_copy in
  let sdf := store_snow_depth corrected_sd sdf in
  let sdf := store_snow_sub_heave (sub_series corrected_sd dh_copy) sdf in
  let sdf := set_heave (mul_scalar corrected_dh (1 / 10)) sdf in
  map null_negative sdf.

(** [for year in seasons: ...] on the shared frame [sdf]. *)
Definition season_loop (site : string) (sdf_copy : list copy_row)
    (seasons : dict (timestamp * timestamp)) (sdf : list sdf_row) : list sdf_row :=
  fold_left (season_step site sdf_copy) seasons sdf.

(** [correct_for_heave] on the snow frame [sdf] and the frame [tdf] read
    from the processed inclinometer file of the site.  The source changes
    [sdf] in place and returns it. *)
Definition correct_for_heave (sdf : list snow_row) (tdf : list tilt_row)
    (site : string) : list sdf_row :=
  let sdf_copy := with_heave sdf tdf in
  season_loop site sdf_copy snow_on_ground (blank sdf).

(** Of the columns of the Environment Canada frame, those the
    specification names. *)
Record met_row : Type := mk_met {
  date_time : timestamp;
  mean_temp : float;
  total_precip : float;
  snow_on_grnd : float
}.

(** A row after the two merges: the columns of the snow frame, those of the
    Inuvik station (suffix [_x]) and those of Trail Valley (suffix [_y]). *)
Record merged_row : Type := mk_merged {
  m_snow : sdf_row;
  m_x : option met_row;
  m_y : option met_row
}.

(** [getMetData(df)], with the frame built from what [parse_ec_dir] read
    in [met_dir] as argument. *)
Definition getMetData {A} (key : A -> timestamp) (df : list A)
    (met_df : list met_row) : list (A * option met_row) :=
  merge_left key date_time df met_df.

(** Column ['Snow on Grnd (cm)_x'] of a merged row. *)
Definition snow_on_grnd_x (r : merged_row) : float :=
  match m_x r with
  | Some m => snow_on_grnd m
  | None => NaN
  end.

(** [combine_snow_with_EC] on the frames of the two stations. *)
Definition combine_snow_with_EC (inuvik trailvalley : list met_row)
    (sdf : list sdf_row) : list merged_row :=
  let sdf := getMetData index sdf inuvik in
  let sdf := getMetData (fun p => index (fst p)) sdf trailvalley in
  let sdf := map (fun p => mk_merged (fst (fst p)) (snd (fst p)) (snd p)) sdf in
  map (fun r =>
         if isna (snow_on_grnd_x r)
         then mk_merged
                (mk_sdf (index (m_snow r)) NaN
                        (snow_sub_heave (m_snow r)) (heave_cm (m_snow r)))
                (m_x r) (m_y r)
         else r) sdf.

(** Analysis period of the snow loggers. *)
Definition start_date : timestamp := to_datetime 2019 6 1.
Definition end_date : timestamp := to_datetime 2023 8 1.

(** A row of the frame [importData] returns: date and snow depth as read, in
    inches. *)
Record raw_row : Type := mk_raw {
  date : timestamp;
  snow_depth : float
}.

(** [processData] on the frame [importData] read. *)
Definition processData (data : list raw_row) : list snow_row :=
  let out := map (fun d => mk_snow (date d) (fmul (snow_depth d) (Some (254 / 100)))) data in
  let out := sort_index_by s_index out in
  let out := filter (fun r => (start_date <=? s_index r)%Z) out in
  let out := filter (fun r => (s_index r <=? end_date)%Z) out in
  out.





End ProcessSnow.

(** ** merge_datasets.py *)

Module MergeDatasets.

Definition MAX_SNOW_VAL : R := 100.

(** [sub in s] on strings. *)
Fixpoint contains (sub s : string) : bool :=
  if String.prefix sub s then true
  else match s with
       | EmptyString => false
       | String _ s' => contains sub s'
       end.

(** Equality of two index values; [NaT] is a duplicate of [NaT]. *)
Definition index_eqb (a b : option timestamp) : bool :=
  match a, b with
  | Some x, Some y => (x =? y)%Z
  | None, None => true
  | _, _ => false
  end.

(** [df[~df.index.duplicated(keep='first')]]: of the rows of one index, the
    first one stays. *)
Fixpoint drop_duplicated {A} (key : A -> option timestamp) (df : list A) : list A :=
  match df with
  | [] => []
  | r :: df' =>
      r :: filter (fun r' => negb (index_eqb (key r') (key r)))
                  (drop_duplicated key df')
  end.

(** A sonar file as read: its path, the label of the snow-depth column and,
    for each line, the instant its date cell stands for once the time zone
    of the header is appended, and the snow-depth cell. *)
Record sonar_file : Type := mk_sonar_file {
  sonar_path : string;
  snow_col : string;
  sonar_lines : list (timestamp * float)
}.

(** A row of the merged sonar frame: index and [snow_depth_in]. *)
Definition sonar_row : Type := (option timestamp * float)%type.

(** [df_new.where(cond)]: a row that fails [cond] is NaN in every column. *)
Definition where_ (cond : sonar_row -> bool) (df : list sonar_row) : list sonar_row :=
  map (fun r => if cond r then r else (None, NaN)) df.

(** The frame [concat] built from one sonar file. *)
Definition sonar_frame (file : sonar_file) : list sonar_row :=
  let df_new := map (fun l => (Some (fst l), snd l)) (sonar_lines file) in
  let df_new :=
    if contains "site_4" (sonar_path file)
    then map (fun r => (fst r, Some 0)) df_new
    else df_new in
  let df_new := where_ (fun r => flt (snd r) MAX_SNOW_VAL) df_new in
  let df_new := where_ (fun r => fgt (snd r) (- MAX_SNOW_VAL)) df_new in
  df_new.

(** The loop of [concat_sonar], returning the frame it writes. *)
Definition concat_sonar (files : list sonar_file) : list sonar_row :=
  fold_left (fun df file =>
               let df := (df ++ sonar_frame file)%list in
               drop_duplicated fst df)
            files [].

(** A row of the merged tilt frame. *)
Record tilt_row : Type := mk_tilt {
  t_index : timestamp;
  t_angle_1 : float;
  t_angle_2 : float;
  t_logger_temp_c : float
}.

(** The last three statements of the loop of [concat_tilt], on the frames
    [concat] built from the files in the order they are given. *)
Definition concat_tilt (frames : list (list tilt_row)) : list tilt_row :=
  fold_left (fun df concat =>
               let df := (df ++ concat)%list in
               let df := sort_index_by t_index df in
               drop_duplicated (fun r => Some (t_index r)) df)
            frames [].

(** Logger names. *)
Definition TILTS : dict string :=
  [("site_1/", "05119"); ("site_2/", "05123"); ("site_3/", "A543E3");
   ("site_4/", "A543D4"); ("site_5/", "A543D1"); ("site_6/", "A543D3")].

(** The loop of [process_all] over the files found, with the lists [sonar]
    and [tilt] built so far. *)
Fixpoint sort_files (site : string) (data sonar tilt : list string)
    : result (list string * list string) :=
  match data with
  | [] => Ok (sonar, tilt)
  | file :: data' =>
      if (contains "hobo" file && contains "csv" file)%bool
      then sort_files site data' (sonar ++ [file])%list tilt
      else if (contains "maxsonar" file && contains "csv" file)%bool
      then sort_files site data' (sonar ++ [file])%list tilt
      else
        logger <- getitem TILTS site ;;
        if (contains logger file && contains "cleaned" file)%bool
        then sort_files site data' sonar (tilt ++ [file])%list
        else sort_files site data' sonar tilt
  end.

(** [process_all] on the files of each directory of the site, up to the lists
    [sonar] and [tilt] it hands to [concat_sonar] and [concat_tilt]. *)
Definition process_all (site : string) (datasets : list (list string))
    : result (list string * list string) :=
  sort_files site (List.concat datasets) [] [].

End MergeDatasets.

(** ** Cell-wise and row-wise forms *)

(** One cell of the series [convertAngles] returns, for arm length [L] and
    pivot height [P]. *)
Definition deflection_cell (L P : R) (flip : bool) (a : float) : float :=
  let dYL := fmul (np_sin a) (Some L) in
  let dYL := if flip then fmul (Some (-1)) dYL else dYL in
  let dX := fmul (fsub (Some 1) (np_cos a)) (Some L) in
  fadd dYL (np_sqrt (fsub (Some (P ^ 2)) (fsqr dX))).

(** The frame [out] of [processData] as it stands when the baseline is taken:
    after the conversion, the zero fill, the sort, the truncation and the
    temperature filter. *)
Definition frame_before_baseline (data : list ProcessTilt.data_row) (site : string)
    : result (list ProcessTilt.row) :=
  h1 <- ProcessTilt.convertAngles (map ProcessTilt.angle_1 data) site false ;;
  let out := zip_with (fun d h => ProcessTilt.mk_row (ProcessTilt.index d)
                                    (ProcessTilt.logger_temp_c d) h) data h1 in
  let out := map ProcessTilt.fill_zero out in
  let out := sort_index_by ProcessTilt.r_index out in
  let out := filter (fun r => (ProcessTilt.start_date <=? ProcessTilt.r_index r)%Z) out in
  let out := filter (fun r => (ProcessTilt.r_index r <=? ProcessTilt.end_date)%Z) out in
  Ok (map ProcessTilt.drop_cold out).

(** The row [processData] returns for a row of that frame and a baseline. *)
Definition with_relative (base : float) (r : ProcessTilt.row) : ProcessTilt.out_row :=
  ProcessTilt.mk_out (ProcessTilt.r_index r) (ProcessTilt.r_logger_temp_c r)
    (ProcessTilt.r_h1_mm r) (fsub (ProcessTilt.r_h1_mm r) base).

(** Membership of the analysis period. *)
Definition in_period (t : timestamp) : bool :=
  ((ProcessTilt.start_date <=? t) && (t <=? ProcessTilt.end_date))%Z%bool.

(** ** Example inputs *)

(** Two readings of site 1 inside the analysis period, one at -40 degrees and
    one at -34 degrees. *)
Definition cold_data : list ProcessTilt.data_row :=
  [ProcessTilt.mk_data (to_datetime 2020 1 1) (Some 0) NaN (Some (-40));
   ProcessTilt.mk_data (to_datetime 2020 1 2) (Some 0) NaN (Some (-34))].

(** A single reading, at -40 degrees. *)
Definition all_cold_data : list ProcessTilt.data_row :=
  [ProcessTilt.mk_data (to_datetime 2020 1 1) (Some 0) NaN (Some (-40))].

(** A level reading before the analysis period, and a missing reading inside
    it. *)
Definition early_data : list ProcessTilt.data_row :=
  [ProcessTilt.mk_data (to_datetime 2018 1 1) (Some 0) NaN (Some 0);
   ProcessTilt.mk_data (to_datetime 2019 1 1) NaN NaN (Some 0)].

(** ** Row-wise form of the season loop *)

(** Membership of a season window: [start <= t < end]. *)
Definition in_window (w : timestamp * timestamp) (t : timestamp) : bool :=
  ((fst w <=? t) && (t <? snd w))%Z%bool.

(** What a season leaves of a row outside it: the [heave_cm] cell is
    overwritten with NaN, and the row is nulled when its snow depth is
    negative. *)
Definition settle (r : ProcessSnow.sdf_row) : ProcessSnow.sdf_row :=
  ProcessSnow.null_negative
    (ProcessSnow.mk_sdf (ProcessSnow.index r) (ProcessSnow.snow_depth_cm r)
       (ProcessSnow.snow_sub_heave r) NaN).

(** What a season writes into a row of its own, from the corrected snow depth
    [sd] and the corrected heave [dh] of the row. *)
Definition written (t : timestamp) (sd dh : float) : ProcessSnow.sdf_row :=
  ProcessSnow.null_negative
    (ProcessSnow.mk_sdf t sd
       (fsub sd (fillna0 (fmul dh (Some (1 / 10)))))
       (fmul dh (Some (1 / 10)))).

(** One season of the loop, on one row of the shared frame. *)
Definition step_row (site : string) (sdf_copy : list ProcessSnow.copy_row)
    (yw : string * (timestamp * timestamp)) (r : ProcessSnow.sdf_row)
    : ProcessSnow.sdf_row :=
  let s := ProcessSnow.season site (fst yw) (snd yw) sdf_copy in
  let cs := ProcessSnow.corrected s (fst (snd yw)) in
  match lookup (fst cs) (ProcessSnow.index r), lookup (snd cs) (ProcessSnow.index r) with
  | Some sd, Some dh => written (ProcessSnow.index r) sd dh
  | _, _ => settle r
  end.

(** The whole loop on one row. *)
Definition loop_row (site : string) (sdf_copy : list ProcessSnow.copy_row)
    (seasons : dict (timestamp * timestamp)) (r : ProcessSnow.sdf_row)
    : ProcessSnow.sdf_row :=
  fold_left (fun r yw => step_row site sdf_copy yw r) seasons r.

(** The snow depth of date [t] as season [yw] corrects it: zeroed at the
    beginning of the season when a row of that date exists, and as read
    otherwise.  [None] when the season has no row of date [t]. *)
Definition corrected_snow_depth (site : string) (sdf_copy : list ProcessSnow.copy_row)
    (yw : string * (timestamp * timestamp)) (t : timestamp) : option float :=
  lookup (fst (ProcessSnow.corrected
                 (ProcessSnow.season site (fst yw) (snd yw) sdf_copy)
                 (fst (snd yw)))) t.

(** Two daily snow depths of the season of 2020, both negative as read. *)
Definition negative_snow : list ProcessSnow.snow_row :=
  [ProcessSnow.mk_snow (to_datetime 2020 10 9) (Some (-5));
   ProcessSnow.mk_snow (to_datetime 2021 1 5) (Some (-16 / 5))].

(** A snow depth of the season of 2020, whose first day has no row. *)
Definition late_snow : list ProcessSnow.snow_row :=
  [ProcessSnow.mk_snow (to_datetime 2020 10 10) (Some 3)].

(** Two daily snow depths of the season of 2022, the second below the
    first. *)
Definition falling_snow : list ProcessSnow.snow_row :=
  [ProcessSnow.mk_snow (to_datetime 2022 9 27) (Some 5);
   ProcessSnow.mk_snow (to_datetime 2022 9 28) (Some 3)].

(** Two sonar files of site 1 that both hold a reading of 2021-01-05, of 10
    and of 20 inches. *)
Definition first_sonar_file : MergeDatasets.sonar_file :=
  MergeDatasets.mk_sonar_file "site_1/2021/hobo_1.csv" "snow depth, inches"
    [(to_datetime 2021 1 5, Some 10)].

Definition second_sonar_file : MergeDatasets.sonar_file :=
  MergeDatasets.mk_sonar_file "site_1/2022/hobo_2.csv" "snow depth, inches"
    [(to_datetime 2021 1 5, Some 20); (to_datetime 2021 1 6, Some 5)].

(** A reading of site 1 with the arm turned by half a turn, outside the
    domain of the geometry. *)
Definition half_turn_data : list ProcessTilt.data_row :=
  [ProcessTilt.mk_data (to_datetime 2020 1 1) (Some PI) NaN (Some 0)].

(** An Environment Canada frame of one day. *)
Definition one_day_met : list ProcessSnow.met_row :=
  [ProcessSnow.mk_met (to_datetime 2021 1 5) (Some (-20)) (Some 0) (Some 30)].

(** Snow depths and heaves of the first two days of the season of 2020. *)
Definition two_day_snow : list ProcessSnow.snow_row :=
  [ProcessSnow.mk_snow (to_datetime 2020 10 9) (Some 5);
   ProcessSnow.mk_snow (to_datetime 2020 10 10) (Some 6)].

Definition two_day_tilt : list ProcessSnow.tilt_row :=
  [ProcessSnow.mk_tilt (to_datetime 2020 10 9) (Some 1);
   ProcessSnow.mk_tilt (to_datetime 2020 10 10) (Some 3)].

(** A snow depth of 2020-04-20, late in the season of 2019. *)
Definition april_snow : list ProcessSnow.snow_row :=
  [ProcessSnow.mk_snow (to_datetime 2020 4 20) (Some 5)].

(** A season of 2020 whose first day holds a row without reading. *)
Definition blank_start_snow : list ProcessSnow.snow_row :=
  [ProcessSnow.mk_snow (to_datetime 2020 10 9) NaN;
   ProcessSnow.mk_snow (to_datetime 2020 10 10) (Some 6)].

(** What the season loop keeps true of every row: no negative snow depth,
    and a corrected snow depth exactly where there is a snow depth. *)
Definition row_settled (r : ProcessSnow.sdf_row) : Prop :=
  flt (ProcessSnow.snow_depth_cm r) 0 = false /\
  (ProcessSnow.snow_depth_cm r = NaN <-> ProcessSnow.snow_sub_heave r = NaN).

(** The files [process_all] counts as sonar files. *)
Definition is_sonar (file : string) : bool :=
  ((MergeDatasets.contains "hobo" file && MergeDatasets.contains "csv" file)
   || (MergeDatasets.contains "maxsonar" file && MergeDatasets.contains "csv" file))%bool.

(** The files [process_all] counts as tilt files of the logger [logger]. *)
Definition is_tilt (logger file : string) : bool :=
  (negb (is_sonar file)
   && (MergeDatasets.contains logger file && MergeDatasets.contains "cleaned" file))%bool.

(** No row of the frame [df] holds the index of the row [r]. *)
Definition index_not_in {A} (key : A -> option timestamp) (df : list A) (r : A) : bool :=
  forallb (fun a => negb (MergeDatasets.index_eqb (key r) (key a))) df.

(** * Properties *)

(** ** Lists *)

Lemma zip_with_map_same {A B C D} (f : B -> C -> D) (g : A -> B) (h : A -> C) l :
  zip_with f (map g l) (map h l) = map (fun a => f (g a) (h a)) l.
Proof.
  induction l as [|a l IH]; simpl; [reflexivity|]. now rewrite IH.
Qed.

Lemma zip_with_map_r {A B C} (f : A -> B -> C) (h : A -> B) l :
  zip_with f l (map h l) = map (fun a => f a (h a)) l.
Proof.
  induction l as [|a l IH]; simpl; [reflexivity|]. now rewrite IH.
Qed.

(** ** Comparisons of cells and of dates *)

Lemma flt_true a c : a < c -> flt (Some a) c = true.
Proof. intros H. unfold flt. now destruct (Rlt_dec a c). Qed.

Lemma flt_false a c : c <= a -> flt (Some a) c = false.
Proof. intros H. unfold flt. destruct (Rlt_dec a c); [lra|reflexivity]. Qed.

Lemma fgt_true a c : c < a -> fgt (Some a) c = true.
Proof. intros H. unfold fgt. now destruct (Rlt_dec c a). Qed.

Lemma fgt_false a c : a <= c -> fgt (Some a) c = false.
Proof. intros H. unfold fgt. destruct (Rlt_dec c a); [lra|reflexivity]. Qed.

Ltac decide_dates :=
  repeat match goal with
    | |- context [(?a <? ?b)%Z] =>
        let v := eval vm_compute in (a <? b)%Z in
        change (a <? b)%Z with v; cbv iota
    | |- context [(?a <=? ?b)%Z] =>
        let v := eval vm_compute in (a <=? b)%Z in
        change (a <=? b)%Z with v; cbv iota
    | |- context [(?a =? ?b)%Z] =>
        let v := eval vm_compute in (a =? b)%Z in
        change (a =? b)%Z with v; cbv iota
    end.

(** ** Geometry *)

Lemma getitem_found {V} (d : dict V) k v :
  dict_find d k = Some v -> getitem d k = Ok v.
Proof. unfold getitem. now intros ->. Qed.

Lemma convertAngles_in_cells al ph angles site flip L P :
  dict_find al site = Some L ->
  dict_find ph site = Some P ->
  ProcessTilt.convertAngles_in al ph angles site flip
  = Ok (map (deflection_cell L P flip) angles).
Proof.
  intros HL HP. unfold ProcessTilt.convertAngles_in.
  rewrite (getitem_found _ _ _ HL), (getitem_found _ _ _ HP). simpl.
  f_equal. unfold deflection_cell.
  destruct flip; rewrite !map_map, zip_with_map_same; reflexivity.
Qed.

Lemma square_below (x P : R) : Rabs x < P -> 0 < P ^ 2 - x ^ 2.
Proof.
  intros H. apply Rabs_def2 in H. nra.
Qed.

Lemma deflection_cell_in_domain L P flip theta :
  Rabs (L * (1 - cos theta)) < P ->
  deflection_cell L P flip (Some theta)
  = Some ((if flip then - (L * sin theta) else L * sin theta)
          + sqrt (P ^ 2 - (L * (1 - cos theta)) ^ 2)).
Proof.
  intros H. apply square_below in H.
  unfold deflection_cell, np_sin, np_cos, np_sqrt, fsqr, fsub, fmul, fadd, fmap, lift2.
  replace (((1 - cos theta) * L) ^ 2) with ((L * (1 - cos theta)) ^ 2) by ring.
  destruct flip; simpl;
    (destruct (Rlt_dec _ 0) as [Hn|_]; [simpl in *; lra|]);
    simpl; f_equal; ring.
Qed.

Lemma deflection_cell_level L P flip :
  0 < P -> deflection_cell L P flip (Some 0) = Some P.
Proof.
  intros HP.
  rewrite deflection_cell_in_domain.
  - rewrite sin_0, cos_0.
    replace (P ^ 2 - (L * (1 - 1)) ^ 2) with (P ^ 2) by ring.
    rewrite sqrt_pow2 by lra.
    destruct flip; f_equal; ring.
  - rewrite cos_0. replace (L * (1 - 1)) with 0 by ring. now rewrite Rabs_R0.
Qed.

(** C1: inside its domain, [|L * (1 - cos theta)| < P], the geometry
    conversion returns [L * sin theta + sqrt (P^2 - (L * (1 - cos theta))^2)]
    for the angle [theta], with the term [L * sin theta] negated when [flip] is
    set; for a zero angle it returns the pivot height [P]. *)
Theorem convertAngles_deflection :
  forall (arm_length pivot_height : dict R) (site : string) (L P : R)
         (angle_rads : list float) (i : nat) (theta : R) (flip : bool),
    dict_find arm_length site = Some L ->
    dict_find pivot_height site = Some P ->
    nth_error angle_rads i = Some (Some theta) ->
    Rabs (L * (1 - cos theta)) < P ->
    exists dY,
      ProcessTilt.convertAngles_in arm_length pivot_height angle_rads site flip = Ok dY /\
      nth_error dY i
      = Some (Some ((if flip then - (L * sin theta) else L * sin theta)
                    + sqrt (P ^ 2 - (L * (1 - cos theta)) ^ 2))) /\
      (theta = 0 -> nth_error dY i = Some (Some P)).
Proof.
  intros al ph site L P angles i theta flip HL HP Hi Hdom.
  exists (map (deflection_cell L P flip) angles).
  split; [now apply convertAngles_in_cells|].
  assert (Hc : nth_error (map (deflection_cell L P flip) angles) i
               = Some (deflection_cell L P flip (Some theta))).
  { rewrite nth_error_map, Hi. reflexivity. }
  split.
  - rewrite Hc, deflection_cell_in_domain by assumption. reflexivity.
  - intros ->. rewrite Hc, deflection_cell_level; [reflexivity|].
    rewrite cos_0 in Hdom. replace (L * (1 - 1)) with 0 in Hdom by ring.
    now rewrite Rabs_R0 in Hdom.
Qed.

Lemma convertAngles_deflection_witness :
  exists dY,
    ProcessTilt.convertAngles [Some 0] "site_1" false = Ok dY /\
    nth_error dY 0
    = Some (Some (1470 * sin 0 + sqrt (120 ^ 2 - (1470 * (1 - cos 0)) ^ 2))) /\
    (0 = 0 -> nth_error dY 0 = Some (Some 120)).
Proof.
  apply (convertAngles_deflection ProcessTilt.arm_length ProcessTilt.pivot_height
           "site_1" 1470 120 [Some 0] 0%nat 0 false).
  - reflexivity.
  - reflexivity.
  - reflexivity.
  - rewrite cos_0. replace (1470 * (1 - 1)) with 0 by ring. rewrite Rabs_R0. lra.
Defined.

(** ** The deflection processor *)

Section Tilt.

Import ProcessTilt.

Lemma processData_split data site :
  processData data site
  = (out <- frame_before_baseline data site ;;
     base <- iloc0 (filter notna (map r_h1_mm out)) ;;
     Ok (map (with_relative base) out)).
Proof.
  unfold processData, frame_before_baseline.
  destruct (convertAngles (map angle_1 data) site false); reflexivity.
Qed.

Lemma processData_inv data site out :
  processData data site = Ok out ->
  exists rows base rest,
    frame_before_baseline data site = Ok rows /\
    filter notna (map r_h1_mm rows) = Some base :: rest /\
    out = map (with_relative (Some base)) rows.
Proof.
  rewrite processData_split.
  destruct (frame_before_baseline data site) as [rows|e]; simpl; [|discriminate].
  destruct (filter notna (map r_h1_mm rows)) as [|b rest] eqn:Hf; simpl; [discriminate|].
  intros H. injection H as <-.
  assert (Hb : In b (filter notna (map r_h1_mm rows))) by (rewrite Hf; now left).
  apply filter_In in Hb. destruct Hb as [_ Hb].
  destruct b as [b|]; [|discriminate].
  now exists rows, b, rest.
Qed.

Lemma notna_fsub_some x b : notna (fsub x (Some b)) = notna x.
Proof. now destruct x. Qed.

Lemma filter_notna_relative b l :
  filter notna (map (fun x => fsub x (Some b)) l)
  = map (fun x => fsub x (Some b)) (filter notna l).
Proof.
  induction l as [|x l IH]; simpl; [reflexivity|].
  rewrite notna_fsub_some. destruct (notna x); simpl; now rewrite IH.
Qed.

Lemma processData_succeeds data site rows :
  frame_before_baseline data site = Ok rows ->
  (exists r, In r rows /\ r_h1_mm r <> NaN) ->
  exists out, processData data site = Ok out.
Proof.
  intros Hrows (r & Hr & Hna).
  rewrite processData_split, Hrows. simpl.
  assert (Hin : In (r_h1_mm r) (filter notna (map r_h1_mm rows))).
  { apply filter_In. split; [now apply in_map|].
    destruct (r_h1_mm r); [reflexivity|now elim Hna]. }
  destruct (filter notna (map r_h1_mm rows)) as [|b rest]; [destruct Hin|].
  simpl. eexists. reflexivity.
Qed.

(** C2: a tilt series that holds a non-missing absolute deflection after the
    temperature filter is processed, and in the frame returned the relative
    deflection of each row is its absolute deflection minus the first
    non-missing absolute deflection of the series; so the first non-missing
    relative deflection is zero. *)
Theorem processData_relative_to_first :
  forall (data : list data_row) (site : string) (rows : list row),
    frame_before_baseline data site = Ok rows ->
    (exists r, In r rows /\ r_h1_mm r <> NaN) ->
    exists (out : list out_row) (base : R),
      processData data site = Ok out /\
      map o_h1_mm out = map r_h1_mm rows /\
      hd_error (filter notna (map o_h1_mm out)) = Some (Some base) /\
      (forall r, In r out -> o_dh1_mm r = fsub (o_h1_mm r) (Some base)) /\
      hd_error (filter notna (map o_dh1_mm out)) = Some (Some 0).
Proof.
  intros data site rows Hrows Hsome.
  destruct (processData_succeeds _ _ _ Hrows Hsome) as (out & Hout).
  exists out.
  apply processData_inv in Hout.
  destruct Hout as (rows' & base & rest & Hrows' & Hf & Hout).
  rewrite Hrows in Hrows'. injection Hrows' as <-.
  exists base. split; [|split; [|split; [|split]]].
  - rewrite processData_split, Hrows. simpl. rewrite Hf. simpl. now rewrite Hout.
  - rewrite Hout, map_map. reflexivity.
  - rewrite Hout, map_map. simpl. change (fun x => r_h1_mm x) with r_h1_mm.
    now rewrite Hf.
  - intros r Hr. rewrite Hout in Hr. apply in_map_iff in Hr.
    destruct Hr as (r' & <- & _). reflexivity.
  - rewrite Hout, map_map. simpl.
    rewrite <- (map_map r_h1_mm (fun x => fsub x (Some base))).
    rewrite filter_notna_relative, Hf. simpl.
    do 2 f_equal. ring.
Qed.

Lemma in_insert_row {A} (key : A -> Z) x a l :
  In x (insert_row key a l) <-> x = a \/ In x l.
Proof.
  induction l as [|y l IH]; simpl.
  - intuition.
  - destruct (key y <? key a)%Z; simpl; rewrite ?IH; intuition.
Qed.

Lemma in_sort_index_by {A} (key : A -> Z) x l :
  In x (sort_index_by key l) <-> In x l.
Proof.
  induction l as [|a l IH]; simpl; [reflexivity|].
  rewrite in_insert_row, IH. intuition.
Qed.

Lemma in_zip_with {A B C} (f : A -> B -> C) x l m :
  In x (zip_with f l m) ->
  exists i a b, nth_error l i = Some a /\ nth_error m i = Some b /\ x = f a b.
Proof.
  revert m. induction l as [|a l IH]; intros [|b m]; simpl; try contradiction.
  intros [<-|H].
  - now exists 0%nat, a, b.
  - destruct (IH _ H) as (i & a' & b' & Ha & Hb & ->).
    now exists (S i), a', b'.
Qed.

Lemma frame_before_baseline_rows data site rows r :
  frame_before_baseline data site = Ok rows ->
  In r rows ->
  exists h1 i d h,
    convertAngles (map angle_1 data) site false = Ok h1 /\
    nth_error data i = Some d /\ nth_error h1 i = Some h /\
    in_period (index d) = true /\
    r = drop_cold (mk_row (index d) (fillna0 (logger_temp_c d)) (fillna0 h)).
Proof.
  unfold frame_before_baseline.
  destruct (convertAngles (map angle_1 data) site false) as [h1|e]; simpl; [|discriminate].
  intros H Hr. injection H as <-.
  apply in_map_iff in Hr. destruct Hr as (r1 & <- & Hr).
  apply filter_In in Hr. destruct Hr as [Hr Hend].
  apply filter_In in Hr. destruct Hr as [Hr Hstart].
  apply in_sort_index_by in Hr.
  apply in_map_iff in Hr. destruct Hr as (r0 & <- & Hr).
  apply in_zip_with in Hr. destruct Hr as (i & d & h & Hd & Hh & ->).
  exists h1, i, d, h. repeat split; try assumption.
  unfold in_period. simpl in Hstart, Hend. now rewrite Hstart, Hend.
Qed.

(** C6: in the frame the deflection processor returns, the absolute
    deflection (and with it the relative one) of a row whose logger
    temperature is below -35 is missing, and
    that of a row whose logger temperature is -35 or more is the value the
    conversion gave for it (zero where that was missing). *)
Theorem processData_temperature_filter :
  forall (data : list data_row) (site : string) (out : list out_row),
    processData data site = Ok out ->
    exists h1,
      convertAngles (map angle_1 data) site false = Ok h1 /\
      forall r, In r out ->
        exists i d h,
          nth_error data i = Some d /\ nth_error h1 i = Some h /\
          o_index r = index d /\
          o_logger_temp_c r = fillna0 (logger_temp_c d) /\
          (forall T, o_logger_temp_c r = Some T -> T < -35 ->
             o_h1_mm r = NaN /\ o_dh1_mm r = NaN) /\
          (forall T, o_logger_temp_c r = Some T -> -35 <= T -> o_h1_mm r = fillna0 h).
Proof.
  intros data site out H.
  apply processData_inv in H. destruct H as (rows & base & rest & Hrows & _ & ->).
  destruct (convertAngles (map angle_1 data) site false) as [h1|e] eqn:Hc.
  2:{ unfold frame_before_baseline in Hrows. rewrite Hc in Hrows. discriminate. }
  exists h1. split; [reflexivity|].
  intros r Hr. apply in_map_iff in Hr. destruct Hr as (r' & <- & Hr).
  destruct (frame_before_baseline_rows _ _ _ _ Hrows Hr)
    as (h1' & i & d & h & Hc' & Hd & Hh & _ & ->).
  rewrite Hc in Hc'. injection Hc' as <-.
  exists i, d, h.
  split; [assumption|]. split; [assumption|].
  split; [unfold drop_cold; simpl; now destruct (flt _ _)|].
  split; [unfold drop_cold; simpl; now destruct (flt _ _)|].
  split.
  - intros T HT Hlt. unfold drop_cold in *. simpl in *.
    destruct (flt (fillna0 (logger_temp_c d)) (-35)) eqn:Hf; simpl in *;
      [now split|].
    rewrite HT in Hf. simpl in Hf. destruct (Rlt_dec T (-35)); [discriminate|lra].
  - intros T HT Hge. unfold drop_cold in *. simpl in *.
    destruct (flt (fillna0 (logger_temp_c d)) (-35)) eqn:Hf; simpl in *; [|reflexivity].
    rewrite HT in Hf. simpl in Hf. destruct (Rlt_dec T (-35)); [lra|discriminate].
Qed.

(** C7, as the code has it: when no absolute deflection is left after the
    temperature filter, the deflection processor fails with the [IndexError]
    of [iloc[0]] on an empty series. *)
Theorem processData_no_baseline :
  forall (data : list data_row) (site : string) (rows : list row),
    frame_before_baseline data site = Ok rows ->
    (forall r, In r rows -> r_h1_mm r = NaN) ->
    processData data site = Raise IndexError.
Proof.
  intros data site rows Hrows Hall.
  rewrite processData_split, Hrows. simpl.
  assert (Hf : filter notna (map r_h1_mm rows) = []).
  { clear Hrows. induction rows as [|r rows IH]; simpl; [reflexivity|].
    rewrite (Hall r) by now left. simpl. apply IH.
    intros r' Hr'. apply Hall. now right. }
  now rewrite Hf.
Qed.

(** *** Evaluation on the example inputs *)

Ltac run_frame :=
  repeat first
    [ progress cbn -[IZR to_datetime deflection_cell Z.ltb Z.leb Z.eqb flt fgt
                     start_date end_date Rminus Rmult Rplus Rdiv Ropp]
    | progress decide_dates
    | rewrite flt_true by lra
    | rewrite flt_false by lra
    | rewrite fgt_true by lra
    | rewrite fgt_false by lra
    | rewrite deflection_cell_level by lra
    | progress unfold drop_cold, fill_zero ].

Ltac run_site_1 :=
  unfold frame_before_baseline, baseline_of_whole_series, convertAngles;
  rewrite (convertAngles_in_cells _ _ _ _ _ 1470 120) by reflexivity;
  run_frame.

Lemma cold_data_frame :
  frame_before_baseline cold_data "site_1"
  = Ok [mk_row (to_datetime 2020 1 1) (Some (-40)) NaN;
        mk_row (to_datetime 2020 1 2) (Some (-34)) (Some 120)].
Proof. run_site_1. reflexivity. Qed.

Lemma cold_data_processed :
  processData cold_data "site_1"
  = Ok [mk_out (to_datetime 2020 1 1) (Some (-40)) NaN NaN;
        mk_out (to_datetime 2020 1 2) (Some (-34)) (Some 120) (Some (120 - 120))].
Proof. rewrite processData_split, cold_data_frame. reflexivity. Qed.

Lemma all_cold_data_frame :
  frame_before_baseline all_cold_data "site_1"
  = Ok [mk_row (to_datetime 2020 1 1) (Some (-40)) NaN].
Proof. run_site_1. reflexivity. Qed.

Lemma early_data_frame :
  frame_before_baseline early_data "site_1"
  = Ok [mk_row (to_datetime 2019 1 1) (Some 0) (Some 0)].
Proof. run_site_1. reflexivity. Qed.

Lemma early_data_processed :
  processData early_data "site_1"
  = Ok [mk_out (to_datetime 2019 1 1) (Some 0) (Some 0) (Some (0 - 0))].
Proof. rewrite processData_split, early_data_frame. reflexivity. Qed.

Lemma early_data_whole_baseline :
  baseline_of_whole_series early_data "site_1" = Ok (Some 120).
Proof. run_site_1. reflexivity. Qed.

Lemma processData_relative_to_first_witness :
  exists (out : list out_row) (base : R),
    processData cold_data "site_1" = Ok out /\
    map o_h1_mm out = [NaN; Some 120] /\
    hd_error (filter notna (map o_h1_mm out)) = Some (Some base) /\
    (forall r, In r out -> o_dh1_mm r = fsub (o_h1_mm r) (Some base)) /\
    hd_error (filter notna (map o_dh1_mm out)) = Some (Some 0).
Proof.
  apply (processData_relative_to_first cold_data "site_1" _ cold_data_frame).
  exists (mk_row (to_datetime 2020 1 2) (Some (-34)) (Some 120)).
  split; [right; now left|discriminate].
Defined.

Lemma processData_temperature_filter_witness :
  exists h1,
    convertAngles (map angle_1 cold_data) "site_1" false = Ok h1 /\
    forall r,
      In r [mk_out (to_datetime 2020 1 1) (Some (-40)) NaN NaN;
            mk_out (to_datetime 2020 1 2) (Some (-34)) (Some 120) (Some (120 - 120))] ->
      exists i d h,
        nth_error cold_data i = Some d /\ nth_error h1 i = Some h /\
        o_index r = index d /\
        o_logger_temp_c r = fillna0 (logger_temp_c d) /\
        (forall T, o_logger_temp_c r = Some T -> T < -35 ->
           o_h1_mm r = NaN /\ o_dh1_mm r = NaN) /\
        (forall T, o_logger_temp_c r = Some T -> -35 <= T -> o_h1_mm r = fillna0 h).
Proof.
  exact (processData_temperature_filter cold_data "site_1" _ cold_data_processed).
Defined.

Lemma processData_no_baseline_witness :
  processData all_cold_data "site_1" = Raise IndexError.
Proof.
  apply (processData_no_baseline all_cold_data "site_1" _ all_cold_data_frame).
  intros r [<-|[]]. reflexivity.
Defined.

(** C7, as the specification has it, fails: a series whose only reading is
    dropped by the temperature filter ends in [IndexError], and not in
    [EmptySeriesError]. *)
Lemma processData_not_empty_series_error :
  frame_before_baseline all_cold_data "site_1"
  = Ok [mk_row (to_datetime 2020 1 1) (Some (-40)) NaN] /\
  processData all_cold_data "site_1" = Raise IndexError /\
  processData all_cold_data "site_1" <> Raise EmptySeriesError.
Proof.
  split; [exact all_cold_data_frame|].
  assert (H : processData all_cold_data "site_1" = Raise IndexError).
  { rewrite processData_split, all_cold_data_frame. reflexivity. }
  split; [exact H|]. rewrite H. discriminate.
Qed.

(** *** The order of the stages *)

Lemma map_insert_row {A B} (g : A -> B) (k : B -> Z) a l :
  map g (insert_row (fun x => k (g x)) a l) = insert_row k (g a) (map g l).
Proof.
  induction l as [|y l IH]; simpl; [reflexivity|].
  destruct (k (g y) <? k (g a))%Z; simpl; now rewrite ?IH.
Qed.

Lemma map_sort_index_by {A B} (g : A -> B) (k : B -> Z) l :
  map g (sort_index_by (fun x => k (g x)) l) = sort_index_by k (map g l).
Proof.
  induction l as [|a l IH]; simpl; [reflexivity|].
  now rewrite map_insert_row, IH.
Qed.

Lemma map_filter_key {A B} (g : A -> B) (p : B -> bool) l :
  map g (filter (fun x => p (g x)) l) = filter p (map g l).
Proof.
  induction l as [|a l IH]; simpl; [reflexivity|].
  destruct (p (g a)); simpl; now rewrite IH.
Qed.

Lemma filter_twice {A} (p q : A -> bool) l :
  filter q (filter p l) = filter (fun x => p x && q x)%bool l.
Proof.
  induction l as [|a l IH]; simpl; [reflexivity|].
  destruct (p a); simpl; [destruct (q a)|]; now rewrite IH.
Qed.

Lemma convertAngles_in_ok al ph angles site flip h1 :
  convertAngles_in al ph angles site flip = Ok h1 ->
  exists L P, dict_find al site = Some L /\ dict_find ph site = Some P /\
              h1 = map (deflection_cell L P flip) angles.
Proof.
  intros H.
  destruct (dict_find al site) as [L|] eqn:HL.
  2:{ unfold convertAngles_in, getitem in H. rewrite HL in H. discriminate. }
  destruct (dict_find ph site) as [P|] eqn:HP.
  2:{ unfold convertAngles_in, getitem in H. rewrite HL, HP in H. discriminate. }
  exists L, P. repeat split.
  rewrite (convertAngles_in_cells _ _ _ _ _ _ _ HL HP) in H. now injection H.
Qed.

Lemma frame_before_baseline_index data site rows :
  frame_before_baseline data site = Ok rows ->
  map r_index rows = filter in_period (sort_index_by (fun t => t) (map index data)).
Proof.
  unfold frame_before_baseline.
  destruct (convertAngles (map angle_1 data) site false) as [h1|e] eqn:Hc;
    simpl; [|discriminate].
  intros H. injection H as <-.
  apply convertAngles_in_ok in Hc. destruct Hc as (L & P & _ & _ & ->).
  rewrite (map_map angle_1), zip_with_map_r, map_map.
  rewrite filter_twice.
  rewrite (map_ext (fun x => r_index (drop_cold x)) r_index).
  2:{ intros r. unfold drop_cold. now destruct (flt _ _). }
  rewrite (map_filter_key r_index in_period).
  rewrite (map_sort_index_by r_index (fun t => t)).
  now rewrite !map_map.
Qed.

(** C5, as the code has it: the deflection processor converts, fills the
    missing cells with zero, sorts, truncates to the analysis period, drops
    the deflection of the cold rows and subtracts the baseline.  So the rows
    returned are those of the period in ascending order, a deflection is
    missing exactly in the rows colder than -35 (the fill came before the
    drop), and the baseline is the first non-missing absolute deflection of
    the truncated and filtered series. *)
Theorem processData_stage_order :
  forall (data : list data_row) (site : string) (out : list out_row),
    processData data site = Ok out ->
    map o_index out
    = filter in_period (sort_index_by (fun t => t) (map index data)) /\
    (forall r, In r out ->
       o_logger_temp_c r <> NaN /\
       (o_h1_mm r = NaN <-> flt (o_logger_temp_c r) (-35) = true)) /\
    exists base : R,
      hd_error (filter notna (map o_h1_mm out)) = Some (Some base) /\
      forall r, In r out -> o_dh1_mm r = fsub (o_h1_mm r) (Some base).
Proof.
  intros data site out H.
  apply processData_inv in H. destruct H as (rows & base & rest & Hrows & Hf & ->).
  split; [|split].
  - rewrite map_map. simpl. change (fun x => r_index x) with r_index.
    now apply (frame_before_baseline_index data site).
  - intros r Hr. apply in_map_iff in Hr. destruct Hr as (r' & <- & Hr).
    destruct (frame_before_baseline_rows _ _ _ _ Hrows Hr)
      as (h1 & i & d & h & _ & _ & _ & _ & ->).
    unfold drop_cold, with_relative. simpl.
    destruct (flt (fillna0 (logger_temp_c d)) (-35)) eqn:Hc; simpl; rewrite ?Hc.
    + split; [now destruct (logger_temp_c d)|]. now split.
    + split; [now destruct (logger_temp_c d)|].
      split; [now destruct h|discriminate].
  - exists base. split.
    + rewrite map_map. simpl. change (fun x => r_h1_mm x) with r_h1_mm.
      now rewrite Hf.
    + intros r Hr. apply in_map_iff in Hr. destruct Hr as (r' & <- & _). reflexivity.
Qed.

Lemma processData_stage_order_witness :
  map o_index
    [mk_out (to_datetime 2020 1 1) (Some (-40)) NaN NaN;
     mk_out (to_datetime 2020 1 2) (Some (-34)) (Some 120) (Some (120 - 120))]
  = filter in_period (sort_index_by (fun t => t) (map index cold_data)) /\
  (forall r,
      In r [mk_out (to_datetime 2020 1 1) (Some (-40)) NaN NaN;
            mk_out (to_datetime 2020 1 2) (Some (-34)) (Some 120) (Some (120 - 120))] ->
      o_logger_temp_c r <> NaN /\
      (o_h1_mm r = NaN <-> flt (o_logger_temp_c r) (-35) = true)) /\
  exists base : R,
    hd_error (filter notna (map o_h1_mm
      [mk_out (to_datetime 2020 1 1) (Some (-40)) NaN NaN;
       mk_out (to_datetime 2020 1 2) (Some (-34)) (Some 120) (Some (120 - 120))]))
    = Some (Some base) /\
    forall r,
      In r [mk_out (to_datetime 2020 1 1) (Some (-40)) NaN NaN;
            mk_out (to_datetime 2020 1 2) (Some (-34)) (Some 120) (Some (120 - 120))] ->
      o_dh1_mm r = fsub (o_h1_mm r) (Some base).
Proof.
  exact (processData_stage_order cold_data "site_1" _ cold_data_processed).
Defined.

(** C5, as the specification has it, fails: with a level reading before the
    analysis period (deflection 120) and a missing reading inside it
    (deflection 0 after the fill), the first available absolute deflection
    of the whole series is 120, and the relative deflection returned for the
    row of the period is 0 - 0, not 0 - 120. *)
Lemma processData_baseline_after_truncation :
  processData early_data "site_1"
  = Ok [mk_out (to_datetime 2019 1 1) (Some 0) (Some 0) (Some (0 - 0))] /\
  baseline_of_whole_series early_data "site_1" = Ok (Some 120) /\
  exists out base r,
    processData early_data "site_1" = Ok out /\
    baseline_of_whole_series early_data "site_1" = Ok base /\
    In r out /\
    o_dh1_mm r <> fsub (o_h1_mm r) base.
Proof.
  split; [exact early_data_processed|].
  split; [exact early_data_whole_baseline|].
  exists [mk_out (to_datetime 2019 1 1) (Some 0) (Some 0) (Some (0 - 0))],
         (Some 120),
         (mk_out (to_datetime 2019 1 1) (Some 0) (Some 0) (Some (0 - 0))).
  split; [exact early_data_processed|].
  split; [exact early_data_whole_baseline|].
  split; [now left|].
  simpl. intros H. injection H as H. lra.
Qed.

End Tilt.

(** ** The heave-corrected snow processor *)

Section Snow.

Import ProcessSnow.

(** *** Series *)

Lemma lookup_map_key {A} (key : A -> timestamp) (f : A -> float) l t :
  lookup (map (fun r => (key r, f r)) l) t
  = option_map f (find (fun r => (key r =? t)%Z) l).
Proof.
  induction l as [|a l IH]; simpl; [reflexivity|].
  destruct (key a =? t)%Z; [reflexivity|apply IH].
Qed.

Lemma lookup_mul_scalar s c t :
  lookup (mul_scalar s c) t = option_map (fun v => fmul v (Some c)) (lookup s t).
Proof.
  induction s as [|[i v] s IH]; simpl; [reflexivity|].
  destruct (i =? t)%Z; [reflexivity|apply IH].
Qed.

Lemma lookup_nan_to_zero s t :
  lookup (nan_to_zero s) t = option_map fillna0 (lookup s t).
Proof.
  induction s as [|[i v] s IH]; simpl; [reflexivity|].
  destruct (i =? t)%Z; [reflexivity|apply IH].
Qed.

Lemma lookup_sub_series s1 s2 t :
  map fst s1 = map fst s2 ->
  lookup (sub_series s1 s2) t
  = match lookup s1 t, lookup s2 t with
    | Some a, Some b => Some (fsub a b)
    | _, _ => None
    end.
Proof.
  revert s2. induction s1 as [|[i v] s1 IH]; intros [|[j u] s2] H; simpl in *;
    try discriminate; [reflexivity|].
  injection H as -> H.
  destruct (j =? t)%Z; [reflexivity|now apply IH].
Qed.

Lemma lookup_same_index s1 s2 t :
  map fst s1 = map fst s2 ->
  lookup s1 t = None <-> lookup s2 t = None.
Proof.
  revert s2. induction s1 as [|[i v] s1 IH]; intros [|[j u] s2] H; simpl in *;
    try discriminate; [reflexivity|].
  injection H as -> H.
  destruct (j =? t)%Z; [split; discriminate|now apply IH].
Qed.

Lemma index_mul_scalar s c : map fst (mul_scalar s c) = map fst s.
Proof. unfold mul_scalar. rewrite map_map. reflexivity. Qed.

Lemma index_nan_to_zero s : map fst (nan_to_zero s) = map fst s.
Proof. unfold nan_to_zero. rewrite map_map. reflexivity. Qed.

Lemma index_sub_scalar s b : map fst (sub_scalar s b) = map fst s.
Proof. unfold sub_scalar. rewrite map_map. reflexivity. Qed.

(** *** The corrected series of a season *)

Lemma index_snow_depth_col f : map fst (snow_depth_col f) = map c_index f.
Proof. unfold snow_depth_col. rewrite map_map. reflexivity. Qed.

Lemma index_dh1_col f : map fst (dh1_col f) = map c_index f.
Proof. unfold dh1_col. rewrite map_map. reflexivity. Qed.

Lemma corrected_index s start :
  map fst (fst (corrected s start)) = map c_index s /\
  map fst (snd (corrected s start)) = map c_index s.
Proof.
  unfold corrected, zero_at_start.
  destruct (loc (snow_depth_col s) start) as [sd0|e]; simpl.
  - destruct (loc (dh1_col s) start) as [dh0|e]; simpl;
      now rewrite ?index_sub_scalar, index_snow_depth_col, index_dh1_col.
  - now rewrite index_snow_depth_col, index_dh1_col.
Qed.

Lemma season_step_rows site sdf_copy sdf yw :
  season_step site sdf_copy sdf yw = map (step_row site sdf_copy yw) sdf.
Proof.
  unfold season_step, step_row. destruct yw as [year w]. simpl fst. simpl snd.
  destruct (corrected_index (season site year w sdf_copy) (fst w)) as [Hsd Hdh].
  destruct (corrected (season site year w sdf_copy) (fst w)) as [csd cdh].
  simpl fst in *. simpl snd in *.
  unfold store_snow_depth, store_snow_sub_heave, set_heave.
  rewrite !map_map. apply map_ext. intros r.
  assert (Hi : map fst csd = map fst (nan_to_zero (mul_scalar cdh (1 / 10)))).
  { now rewrite index_nan_to_zero, index_mul_scalar, Hsd, Hdh. }
  assert (Hn : lookup csd (index r) = None <-> lookup cdh (index r) = None).
  { apply lookup_same_index. now rewrite Hsd, Hdh. }
  destruct (lookup csd (index r)) as [sd|] eqn:Esd.
  - cbn [index snow_depth_cm snow_sub_heave heave_cm].
    rewrite (lookup_sub_series _ _ _ Hi), Esd.
    rewrite lookup_nan_to_zero, !lookup_mul_scalar.
    destruct (lookup cdh (index r)) as [dh|] eqn:Edh.
    + unfold written.
      cbn [option_map index snow_depth_cm snow_sub_heave heave_cm].
      rewrite ?lookup_mul_scalar, ?Edh. reflexivity.
    + destruct Hn as [_ Hn]. now specialize (Hn eq_refl).
  - rewrite (lookup_sub_series _ _ _ Hi), Esd.
    cbn [index snow_depth_cm snow_sub_heave heave_cm].
    rewrite lookup_mul_scalar.
    destruct Hn as [Hn _]. rewrite (Hn eq_refl).
    unfold settle.
    cbn [option_map index snow_depth_cm snow_sub_heave heave_cm].
    rewrite ?lookup_mul_scalar, ?(Hn eq_refl). reflexivity.
Qed.

Lemma fold_left_map_rows {A B} (f : B -> A -> A) (ws : list B) (l : list A) :
  fold_left (fun l w => map (f w) l) ws l
  = map (fun r => fold_left (fun r w => f w r) ws r) l.
Proof.
  revert l. induction ws as [|w ws IH]; intros l; simpl.
  - now rewrite map_id.
  - now rewrite IH, map_map.
Qed.

Lemma season_loop_rows site sdf_copy seasons sdf :
  season_loop site sdf_copy seasons sdf = map (loop_row site sdf_copy seasons) sdf.
Proof.
  unfold season_loop, loop_row.
  rewrite <- (fold_left_map_rows (step_row site sdf_copy)).
  revert sdf. induction seasons as [|yw ws IH]; intros sdf; simpl; [reflexivity|].
  now rewrite season_step_rows, IH.
Qed.

(** *** One row through the seasons *)

Lemma lookup_none_iff s t : lookup s t = None <-> ~ In t (map fst s).
Proof.
  induction s as [|[i v] s IH]; simpl; [intuition|].
  destruct (i =? t)%Z eqn:E.
  - apply Z.eqb_eq in E. split; [discriminate|]. intros H. exfalso. apply H. now left.
  - apply Z.eqb_neq in E. rewrite IH. intuition.
Qed.

Lemma in_season_lookups site sdf_copy yw t :
  In t (map c_index (season site (fst yw) (snd yw) sdf_copy)) ->
  exists sd dh,
    lookup (fst (corrected (season site (fst yw) (snd yw) sdf_copy) (fst (snd yw)))) t
    = Some sd /\
    lookup (snd (corrected (season site (fst yw) (snd yw) sdf_copy) (fst (snd yw)))) t
    = Some dh.
Proof.
  intros Hin.
  destruct (corrected_index (season site (fst yw) (snd yw) sdf_copy) (fst (snd yw)))
    as [Hsd Hdh].
  rewrite <- Hsd in Hin.
  destruct (lookup (fst (corrected _ _)) t) as [sd|] eqn:Esd.
  2:{ apply lookup_none_iff in Esd. contradiction. }
  rewrite Hsd, <- Hdh in Hin.
  destruct (lookup (snd (corrected _ _)) t) as [dh|] eqn:Edh.
  2:{ apply lookup_none_iff in Edh. contradiction. }
  now exists sd, dh.
Qed.

Lemma out_of_season_lookup site sdf_copy yw t :
  ~ In t (map c_index (season site (fst yw) (snd yw) sdf_copy)) ->
  lookup (fst (corrected (season site (fst yw) (snd yw) sdf_copy) (fst (snd yw)))) t
  = None.
Proof.
  intros Hout. apply lookup_none_iff.
  now rewrite (proj1 (corrected_index _ _)).
Qed.

Lemma step_row_in_season site sdf_copy yw r r' :
  index r = index r' ->
  In (index r) (map c_index (season site (fst yw) (snd yw) sdf_copy)) ->
  step_row site sdf_copy yw r = step_row site sdf_copy yw r'.
Proof.
  intros Hi Hin. unfold step_row. rewrite <- Hi.
  destruct (in_season_lookups _ _ _ _ Hin) as (sd & dh & -> & ->). reflexivity.
Qed.

Lemma step_row_out_of_season site sdf_copy yw r :
  ~ In (index r) (map c_index (season site (fst yw) (snd yw) sdf_copy)) ->
  step_row site sdf_copy yw r = settle r.
Proof.
  intros Hout. unfold step_row.
  now rewrite (out_of_season_lookup _ _ _ _ Hout).
Qed.

Lemma index_null_negative r : index (null_negative r) = index r.
Proof. unfold null_negative. now destruct (flt _ _). Qed.

Lemma index_settle r : index (settle r) = index r.
Proof. unfold settle. now rewrite index_null_negative. Qed.

Lemma index_step_row site sdf_copy yw r :
  index (step_row site sdf_copy yw r) = index r.
Proof.
  unfold step_row.
  destruct (lookup (fst _) (index r)); [destruct (lookup (snd _) (index r))|];
    unfold written; now rewrite ?index_settle, ?index_null_negative.
Qed.

Lemma index_loop_row site sdf_copy seasons r :
  index (loop_row site sdf_copy seasons r) = index r.
Proof.
  unfold loop_row. revert r.
  induction seasons as [|yw ws IH]; intros r; simpl; [reflexivity|].
  now rewrite IH, index_step_row.
Qed.

Lemma settle_settle r : settle (settle r) = settle r.
Proof.
  unfold settle, null_negative. simpl.
  destruct (flt (snow_depth_cm r) 0) eqn:E; simpl; [reflexivity|].
  now rewrite E.
Qed.

Lemma loop_row_settled site sdf_copy seasons r :
  (forall yw, In yw seasons ->
     ~ In (index r) (map c_index (season site (fst yw) (snd yw) sdf_copy))) ->
  loop_row site sdf_copy seasons (settle r) = settle r.
Proof.
  unfold loop_row. induction seasons as [|yw ws IH]; intros Hout; simpl; [reflexivity|].
  rewrite step_row_out_of_season.
  - rewrite settle_settle. apply IH. intros yw' Hyw'. apply Hout. now right.
  - rewrite index_settle. apply Hout. now left.
Qed.

Lemma loop_row_out_of_season site sdf_copy yw seasons r :
  (forall yw', In yw' (yw :: seasons) ->
     ~ In (index r) (map c_index (season site (fst yw') (snd yw') sdf_copy))) ->
  loop_row site sdf_copy (yw :: seasons) r = settle r.
Proof.
  intros Hout. unfold loop_row. simpl.
  rewrite step_row_out_of_season by (apply Hout; now left).
  apply loop_row_settled. intros yw' Hyw'. apply Hout. now right.
Qed.




Lemma season_in_window site year w sdf_copy t :
  In t (map c_index (season site year w sdf_copy)) -> in_window w t = true.
Proof.
  intros Hin. apply in_map_iff in Hin. destruct Hin as (c & <- & Hc).
  assert (H : In c (filter (fun r => (c_index r <? snd w)%Z)
                      (filter (fun r => (fst w <=? c_index r)%Z) sdf_copy))).
  { unfold season in Hc.
    destruct (String.eqb site "site_2" && String.eqb year "2019")%bool.
    - now apply filter_In in Hc.
    - assumption. }
  apply filter_In in H. destruct H as [H Hend].
  apply filter_In in H. destruct H as [_ Hstart].
  unfold in_window. now rewrite Hstart, Hend.
Qed.



(** *** The seasons of the table *)

Ltac date_values :=
  repeat match goal with
    | |- context [to_datetime ?y ?m ?d] =>
        let v := eval vm_compute in (to_datetime y m d) in
        change (to_datetime y m d) with v
    | H : context [to_datetime ?y ?m ?d] |- _ =>
        let v := eval vm_compute in (to_datetime y m d) in
        change (to_datetime y m d) with v in H
    end.

Lemma in_window_bounds w t :
  in_window w t = true <-> (fst w <= t < snd w)%Z.
Proof.
  unfold in_window. rewrite andb_true_iff, Z.leb_le, Z.ltb_lt. reflexivity.
Qed.

Lemma out_of_window_bounds w t :
  (t < fst w \/ snd w <= t)%Z -> in_window w t = false.
Proof.
  intros H. unfold in_window. apply andb_false_iff.
  now rewrite Z.leb_gt, Z.ltb_ge.
Qed.

(** The windows of [snow_on_ground] do not overlap: a date of one season is
    outside the window of every later season. *)
Lemma snow_on_ground_split year w :
  In (year, w) snow_on_ground ->
  exists before after,
    snow_on_ground = (before ++ (year, w) :: after)%list /\
    forall t yw, in_window w t = true -> In yw after -> in_window (snd yw) t = false.
Proof.
  unfold snow_on_ground. intros Hin. simpl in Hin.
  destruct Hin as [H|[H|[H|[H|[]]]]]; injection H as <- <-.
  - eexists [], _. split; [reflexivity|].
    intros t yw Ht Hyw. apply in_window_bounds in Ht. simpl in Ht, Hyw.
    destruct Hyw as [<-|[<-|[<-|[]]]]; apply out_of_window_bounds; simpl;
      date_values; lia.
  - eexists [_], _. split; [reflexivity|].
    intros t yw Ht Hyw. apply in_window_bounds in Ht. simpl in Ht, Hyw.
    destruct Hyw as [<-|[<-|[]]]; apply out_of_window_bounds; simpl;
      date_values; lia.
  - eexists [_; _], _. split; [reflexivity|].
    intros t yw Ht Hyw. apply in_window_bounds in Ht. simpl in Ht, Hyw.
    destruct Hyw as [<-|[]]; apply out_of_window_bounds; simpl;
      date_values; lia.
  - eexists [_; _; _], _. split; [reflexivity|].
    intros t yw _ [].
Qed.

Lemma loop_row_app site sdf_copy ws1 ws2 r :
  loop_row site sdf_copy (ws1 ++ ws2)%list r
  = loop_row site sdf_copy ws2 (loop_row site sdf_copy ws1 r).
Proof. unfold loop_row. apply fold_left_app. Qed.

(** After the last season that holds the date of a row, the row is what that
    season wrote, seen through the seasons that follow. *)
Lemma loop_row_last_season site sdf_copy before yw after r :
  In (index r) (map c_index (season site (fst yw) (snd yw) sdf_copy)) ->
  loop_row site sdf_copy (before ++ yw :: after)%list r
  = loop_row site sdf_copy after (step_row site sdf_copy yw r).
Proof.
  intros Hin. rewrite loop_row_app.
  change (loop_row site sdf_copy (yw :: after) (loop_row site sdf_copy before r))
    with (loop_row site sdf_copy after
            (step_row site sdf_copy yw (loop_row site sdf_copy before r))).
  f_equal. apply step_row_in_season.
  - apply index_loop_row.
  - now rewrite index_loop_row.
Qed.

Lemma loop_row_after site sdf_copy after x :
  (forall yw, In yw after ->
     ~ In (index x) (map c_index (season site (fst yw) (snd yw) sdf_copy))) ->
  loop_row site sdf_copy after x = x \/ loop_row site sdf_copy after x = settle x.
Proof.
  intros Hmiss. destruct after as [|yw ws]; [now left|].
  right. now apply loop_row_out_of_season.
Qed.

Lemma settle_nulled t : settle (mk_sdf t NaN NaN NaN) = mk_sdf t NaN NaN NaN.
Proof. reflexivity. Qed.

Lemma settle_kept r :
  flt (snow_depth_cm r) 0 = false ->
  snow_depth_cm (settle r) = snow_depth_cm r /\
  snow_sub_heave (settle r) = snow_sub_heave r.
Proof.
  intros H. unfold settle, null_negative. simpl. now rewrite H.
Qed.

(** A row of the result whose date is in a season of the table: the row that
    season wrote, with its snow depth and corrected snow depth kept by the
    seasons that follow. *)
Lemma correct_for_heave_row sdf tdf site year w r :
  In (year, w) snow_on_ground ->
  In r (correct_for_heave sdf tdf site) ->
  In (index r) (map c_index (season site year w (with_heave sdf tdf))) ->
  exists sd dh,
    lookup (fst (corrected (season site year w (with_heave sdf tdf)) (fst w))) (index r)
    = Some sd /\
    lookup (snd (corrected (season site year w (with_heave sdf tdf)) (fst w))) (index r)
    = Some dh /\
    (r = written (index r) sd dh \/ r = settle (written (index r) sd dh)).
Proof.
  intros Htab Hr Hin.
  destruct (snow_on_ground_split year w Htab) as (before & after & Hsplit & Hdisj).
  unfold correct_for_heave in Hr. rewrite season_loop_rows in Hr.
  apply in_map_iff in Hr. destruct Hr as (b & Hb & _).
  assert (Hi : index b = index r) by (rewrite <- Hb; now rewrite index_loop_row).
  rewrite Hsplit in Hb.
  rewrite <- Hi in Hin.
  rewrite (loop_row_last_season site _ before (year, w) after b Hin) in Hb.
  destruct (in_season_lookups site _ (year, w) _ Hin) as (sd & dh & Hsd & Hdh).
  simpl fst in Hsd, Hdh. simpl snd in Hsd, Hdh.
  assert (Hstep : step_row site (with_heave sdf tdf) (year, w) b
                  = written (index b) sd dh).
  { unfold step_row. simpl fst. simpl snd. now rewrite Hsd, Hdh. }
  rewrite Hstep in Hb.
  assert (Hmiss : forall yw, In yw after ->
            ~ In (index (written (index b) sd dh))
                 (map c_index (season site (fst yw) (snd yw) (with_heave sdf tdf)))).
  { intros yw Hyw Hin'. apply season_in_window in Hin'.
    unfold written in Hin'. rewrite index_null_negative in Hin'. simpl in Hin'.
    rewrite (Hdisj (index b) yw) in Hin'; [discriminate| |assumption].
    exact (season_in_window _ _ _ _ _ Hin). }
  rewrite Hi in *.
  exists sd, dh. split; [assumption|]. split; [assumption|].
  destruct (loop_row_after site _ after _ Hmiss) as [H|H]; rewrite H in Hb;
    [left|right]; now symmetry.
Qed.

(** C4, as the code has it: a row of the result whose snow depth, zeroed at
    the beginning of its season, is negative is missing in every column. *)
Theorem negative_corrected_depth_nulls_row :
  forall (sdf : list snow_row) (tdf : list tilt_row) (site year : string)
         (w : timestamp * timestamp) (r : sdf_row) (sd : R),
    In (year, w) snow_on_ground ->
    In r (correct_for_heave sdf tdf site) ->
    corrected_snow_depth site (with_heave sdf tdf) (year, w) (index r) = Some (Some sd) ->
    sd < 0 ->
    snow_depth_cm r = NaN /\ snow_sub_heave r = NaN /\ heave_cm r = NaN.
Proof.
  intros sdf tdf site year w r sd Htab Hr Hsd Hneg.
  unfold corrected_snow_depth in Hsd. simpl fst in Hsd. simpl snd in Hsd.
  assert (Hin : In (index r) (map c_index (season site year w (with_heave sdf tdf)))).
  { rewrite <- (proj1 (corrected_index _ (fst w))).
    destruct (in_dec Z.eq_dec (index r)
                (map fst (fst (corrected (season site year w (with_heave sdf tdf))
                                 (fst w))))) as [H|H]; [assumption|].
    apply lookup_none_iff in H. rewrite H in Hsd. discriminate. }
  destruct (correct_for_heave_row _ _ _ _ _ _ Htab Hr Hin)
    as (sd' & dh & Hsd' & _ & Hrow).
  rewrite Hsd in Hsd'. injection Hsd' as <-.
  assert (Hw : written (index r) (Some sd) dh = mk_sdf (index r) NaN NaN NaN).
  { unfold written, null_negative. simpl snow_depth_cm.
    now rewrite (flt_true sd 0 Hneg). }
  rewrite Hw, settle_nulled in Hrow.
  destruct Hrow as [-> | ->]; now cbn.
Qed.


(** *** Evaluation on the example inputs *)

Lemma flt_nan c : flt NaN c = false.
Proof. reflexivity. Qed.

Ltac run_seasons :=
  repeat first
    [ progress cbn -[IZR to_datetime Z.ltb Z.leb Z.eqb flt fgt
                     Rminus Rmult Rplus Rdiv Ropp]
    | progress decide_dates
    | rewrite flt_nan
    | rewrite flt_true by lra
    | rewrite flt_false by lra ].

Ltac run_correct_for_heave :=
  unfold correct_for_heave, season_loop, snow_on_ground;
  unfold season_step, season, corrected, zero_at_start, loc, null_negative;
  run_seasons.

Lemma negative_snow_corrected :
  correct_for_heave negative_snow [] "site_1"
  = [mk_sdf (to_datetime 2020 10 9) (Some (-5 - -5)) (Some (-5 - -5 - 0)) NaN;
     mk_sdf (to_datetime 2021 1 5) (Some (-16 / 5 - -5)) (Some (-16 / 5 - -5 - 0)) NaN].
Proof. unfold negative_snow. run_correct_for_heave. reflexivity. Qed.

(** C4, as the specification has it, fails: with the readings -5 on
    2020-10-09, the first day of the season, and -3.2 on 2021-01-05, the row
    of 2021-01-05 in the result holds the snow depth -3.2 - -5, though the
    snow depth read on that day is negative. *)
Lemma negative_raw_depth_row_kept :
  correct_for_heave negative_snow [] "site_1"
  = [mk_sdf (to_datetime 2020 10 9) (Some (-5 - -5)) (Some (-5 - -5 - 0)) NaN;
     mk_sdf (to_datetime 2021 1 5) (Some (-16 / 5 - -5)) (Some (-16 / 5 - -5 - 0)) NaN] /\
  exists d r,
    In d negative_snow /\ s_index d = to_datetime 2021 1 5 /\
    flt (s_snow_depth_cm d) 0 = true /\
    In r (correct_for_heave negative_snow [] "site_1") /\
    index r = s_index d /\
    snow_depth_cm r <> NaN.
Proof.
  split; [exact negative_snow_corrected|].
  exists (mk_snow (to_datetime 2021 1 5) (Some (-16 / 5))),
         (mk_sdf (to_datetime 2021 1 5) (Some (-16 / 5 - -5))
                 (Some (-16 / 5 - -5 - 0)) NaN).
  split; [right; now left|]. split; [reflexivity|].
  split; [apply flt_true; lra|].
  split; [rewrite negative_snow_corrected; right; now left|].
  split; [reflexivity|]. discriminate.
Qed.

(** A snow depth that falls below the one of the first day of its season is
    negative once zeroed, and its row comes out nulled. *)
Lemma falling_snow_corrected :
  correct_for_heave falling_snow [] "site_1"
  = [mk_sdf (to_datetime 2022 9 27) (Some (5 - 5)) (Some (5 - 5 - 0)) NaN;
     mk_sdf (to_datetime 2022 9 28) NaN NaN NaN].
Proof. unfold falling_snow. run_correct_for_heave. reflexivity. Qed.

Lemma negative_corrected_depth_nulls_row_witness :
  snow_depth_cm (mk_sdf (to_datetime 2022 9 28) NaN NaN NaN) = NaN /\
  snow_sub_heave (mk_sdf (to_datetime 2022 9 28) NaN NaN NaN) = NaN /\
  heave_cm (mk_sdf (to_datetime 2022 9 28) NaN NaN NaN) = NaN.
Proof.
  apply (negative_corrected_depth_nulls_row falling_snow [] "site_1" "2022"
           (to_datetime 2022 9 27, to_datetime 2023 6 1)
           (mk_sdf (to_datetime 2022 9 28) NaN NaN NaN) (3 - 5)).
  - right. right. right. now left.
  - rewrite falling_snow_corrected. right. now left.
  - unfold corrected_snow_depth, falling_snow, season, corrected, zero_at_start, loc.
    run_seasons. reflexivity.
  - lra.
Defined.

(** *** A season whose first day has no row *)


Lemma season_rows site year w sdf_copy c :
  In c (season site year w sdf_copy) -> In c sdf_copy.
Proof.
  intros Hc.
  assert (H : In c (filter (fun r => (c_index r <? snd w)%Z)
                      (filter (fun r => (fst w <=? c_index r)%Z) sdf_copy))).
  { unfold season in Hc.
    destruct (String.eqb site "site_2" && String.eqb year "2019")%bool.
    - now apply filter_In in Hc.
    - assumption. }
  apply filter_In in H. destruct H as [H _].
  apply filter_In in H. now destruct H.
Qed.


Lemma written_kept t sd dh :
  flt sd 0 = false ->
  written t sd dh
  = mk_sdf t sd (fsub sd (fillna0 (fmul dh (Some (1 / 10))))) (fmul dh (Some (1 / 10))).
Proof.
  intros H. unfold written, null_negative. simpl snow_depth_cm. now rewrite H.
Qed.


Lemma late_snow_corrected :
  correct_for_heave late_snow [] "site_1"
  = [mk_sdf (to_datetime 2020 10 10) (Some 3) (Some (3 - 0)) NaN].
Proof. unfold late_snow. run_correct_for_heave. reflexivity. Qed.


(** *** Merge with the Environment Canada frames *)

Lemma in_merge_left {A B} (kl : A -> timestamp) (kr : B -> timestamp)
    (left : list A) (right : list B) (p : A * option B) :
  In p (merge_left kl kr left right) <->
  In (fst p) left /\
  match snd p with
  | Some b => In b right /\ kr b = kl (fst p)
  | None => forall b, In b right -> kr b <> kl (fst p)
  end.
Proof.
  unfold merge_left. rewrite in_flat_map. destruct p as [a ob]. simpl.
  split.
  - intros (a' & Ha' & Hp).
    destruct (filter (fun b => (kr b =? kl a')%Z) right) as [|b0 bs] eqn:Hf.
    + destruct Hp as [Hp|[]]. injection Hp as <- <-.
      split; [assumption|]. intros b Hb Heq.
      assert (Hin : In b (filter (fun b => (kr b =? kl a')%Z) right)).
      { apply filter_In. split; [assumption|now apply Z.eqb_eq]. }
      now rewrite Hf in Hin.
    + change (In (a, ob) (map (fun b => (a', Some b)) (b0 :: bs))) in Hp.
      apply in_map_iff in Hp. destruct Hp as (b & Hp & Hb).
      injection Hp as <- <-.
      rewrite <- Hf in Hb. apply filter_In in Hb. destruct Hb as [Hb Heq].
      apply Z.eqb_eq in Heq. now repeat split.
  - intros [Ha Hob]. exists a. split; [assumption|].
    destruct ob as [b|].
    + destruct Hob as [Hb Heq].
      assert (Hin : In b (filter (fun b => (kr b =? kl a)%Z) right)).
      { apply filter_In. split; [assumption|now apply Z.eqb_eq]. }
      destruct (filter (fun b => (kr b =? kl a)%Z) right) as [|b0 bs];
        [destruct Hin|].
      change (In (a, Some b) (map (fun b => (a, Some b)) (b0 :: bs))).
      apply in_map_iff. now exists b.
    + destruct (filter (fun b => (kr b =? kl a)%Z) right) as [|b0 bs] eqn:Hf.
      * now left.
      * exfalso.
        assert (Hin : In b0 (filter (fun b => (kr b =? kl a)%Z) right))
          by (rewrite Hf; now left).
        apply filter_In in Hin. destruct Hin as [Hin Heq].
        apply Z.eqb_eq in Heq. exact (Hob b0 Hin Heq).
Qed.

(** C10: in the frame [combine_snow_with_EC] returns, every row comes from a
    row of the snow frame and holds its index, its corrected snow depth and
    its heave unchanged, next to the Inuvik row of that date when there is
    one; its snow depth is missing when the Inuvik snow on ground is missing
    (no Inuvik row of that date, or a missing cell), and is the one of the
    snow frame otherwise.  So the merge does change the snow frame: a snow
    depth of 1 cm without an Inuvik row comes out missing. *)
Theorem combine_snow_with_EC_snow_depth :
  forall (inuvik trailvalley : list met_row) (sdf : list sdf_row),
    (forall m, In m (combine_snow_with_EC inuvik trailvalley sdf) ->
       exists r,
         In r sdf /\
         index (m_snow m) = index r /\
         snow_sub_heave (m_snow m) = snow_sub_heave r /\
         heave_cm (m_snow m) = heave_cm r /\
         match m_x m with
         | Some x => In x inuvik /\ date_time x = index r
         | None => forall x, In x inuvik -> date_time x <> index r
         end /\
         (isna (snow_on_grnd_x m) = true -> snow_depth_cm (m_snow m) = NaN) /\
         (isna (snow_on_grnd_x m) = false ->
          snow_depth_cm (m_snow m) = snow_depth_cm r)) /\
    (forall r, In r sdf ->
       exists m, In m (combine_snow_with_EC inuvik trailvalley sdf) /\
                 index (m_snow m) = index r) /\
    combine_snow_with_EC [] [] [mk_sdf (to_datetime 2021 1 5) (Some 1) (Some 1) (Some 0)]
    = [mk_merged (mk_sdf (to_datetime 2021 1 5) NaN (Some 1) (Some 0)) None None].
Proof.
  intros inuvik trailvalley sdf. split; [|split].
  - intros m Hm. unfold combine_snow_with_EC, getMetData in Hm.
    apply in_map_iff in Hm. destruct Hm as (m0 & <- & Hm0).
    apply in_map_iff in Hm0. destruct Hm0 as ([[r ox] oy] & <- & Hp).
    apply in_merge_left in Hp. destruct Hp as [Hp _]. simpl in Hp.
    apply in_merge_left in Hp. destruct Hp as [Hr Hx]. simpl in Hr, Hx.
    exists r. split; [assumption|].
    unfold snow_on_grnd_x. simpl.
    destruct ox as [x|]; simpl.
    + destruct (isna (snow_on_grnd x)) eqn:E; simpl; unfold snow_on_grnd_x; simpl;
        rewrite ?E; repeat split; try tauto; try discriminate.
    + repeat split; try assumption. discriminate.
  - intros r Hr. unfold combine_snow_with_EC, getMetData.
    assert (H1 : exists ox, In (r, ox) (merge_left index date_time sdf inuvik)).
    { destruct (filter (fun b => (date_time b =? index r)%Z) inuvik) as [|x xs] eqn:Hf.
      - exists None. apply in_merge_left. split; [assumption|]. simpl.
        intros b Hb Heq.
        assert (Hin : In b (filter (fun b => (date_time b =? index r)%Z) inuvik)).
        { apply filter_In. split; [assumption|now apply Z.eqb_eq]. }
        now rewrite Hf in Hin.
      - exists (Some x). apply in_merge_left. split; [assumption|]. simpl.
        assert (Hin : In x (filter (fun b => (date_time b =? index r)%Z) inuvik))
          by (rewrite Hf; now left).
        apply filter_In in Hin. destruct Hin as [Hin Heq].
        apply Z.eqb_eq in Heq. now split. }
    destruct H1 as (ox & H1).
    assert (H2 : exists oy,
               In (r, ox, oy)
                  (merge_left (fun p => index (fst p)) date_time
                     (merge_left index date_time sdf inuvik) trailvalley)).
    { destruct (filter (fun b => (date_time b =? index r)%Z) trailvalley)
        as [|y ys] eqn:Hf.
      - exists None. apply in_merge_left. split; [assumption|]. simpl.
        intros b Hb Heq.
        assert (Hin : In b (filter (fun b => (date_time b =? index r)%Z) trailvalley)).
        { apply filter_In. split; [assumption|now apply Z.eqb_eq]. }
        now rewrite Hf in Hin.
      - exists (Some y). apply in_merge_left. split; [assumption|]. simpl.
        assert (Hin : In y (filter (fun b => (date_time b =? index r)%Z) trailvalley))
          by (rewrite Hf; now left).
        apply filter_In in Hin. destruct Hin as [Hin Heq].
        apply Z.eqb_eq in Heq. now split. }
    destruct H2 as (oy & H2).
    eexists. split.
    + apply in_map. apply in_map_iff. exists (r, ox, oy). split; [reflexivity|exact H2].
    + simpl. now destruct (isna _).
  - reflexivity.
Qed.

End Snow.

(** ** Merging the files of a site *)

Section Merge.

Import MergeDatasets.



Lemma index_eqb_eq a b : index_eqb a b = true <-> a = b.
Proof.
  destruct a as [x|], b as [y|]; simpl; try (split; [discriminate|discriminate]).
  - rewrite Z.eqb_eq. split; [now intros ->|now intros [= ->]].
  - split; reflexivity.
Qed.

Lemma index_eqb_refl a : index_eqb a a = true.
Proof. now apply index_eqb_eq. Qed.



Lemma in_drop_duplicated {A} (key : A -> option timestamp) x l :
  In x (drop_duplicated key l) -> In x l.
Proof.
  revert x. induction l as [|a l IH]; intros x; simpl; [tauto|].
  intros [<-|H]; [now left|].
  apply filter_In in H. right. now apply IH.
Qed.

Lemma nodup_filter_keys {A B} (key : A -> B) (p : A -> bool) l :
  NoDup (map key l) -> NoDup (map key (filter p l)).
Proof.
  induction l as [|a l IH]; simpl; [trivial|].
  intros H. inversion H as [|? ? Hn Hd]; subst.
  destruct (p a); simpl; [|now apply IH].
  constructor; [|now apply IH].
  intros Hin. apply Hn. apply in_map_iff in Hin. destruct Hin as (x & Hx & Hf).
  apply filter_In in Hf. apply in_map_iff. exists x. tauto.
Qed.

Lemma nodup_drop_duplicated {A} (key : A -> option timestamp) l :
  NoDup (map key (drop_duplicated key l)).
Proof.
  induction l as [|a l IH]; simpl; [constructor|].
  constructor.
  - intros Hin. apply in_map_iff in Hin. destruct Hin as (x & Hx & Hf).
    apply filter_In in Hf. destruct Hf as [_ Hf].
    rewrite Hx, index_eqb_refl in Hf. discriminate.
  - now apply nodup_filter_keys.
Qed.

(** In a frame without duplicated index, the rows of one index value are the
    first of them alone. *)
Lemma filter_unique {A} (key : A -> option timestamp) k l x :
  NoDup (map key l) ->
  find (fun r => index_eqb (key r) k) l = Some x ->
  filter (fun r => index_eqb (key r) k) l = [x].
Proof.
  induction l as [|a l IH]; simpl; [discriminate|].
  intros H Hf. inversion H as [|? ? Hn Hd]; subst.
  destruct (index_eqb (key a) k) eqn:E.
  - injection Hf as <-. f_equal.
    apply index_eqb_eq in E.
    assert (Hnone : forall y, In y l -> index_eqb (key y) k = false).
    { intros y Hy. destruct (index_eqb (key y) k) eqn:Ey; [|reflexivity].
      apply index_eqb_eq in Ey. exfalso. apply Hn. rewrite E, <- Ey.
      now apply in_map. }
    clear -Hnone. induction l as [|y l IH]; simpl; [reflexivity|].
    rewrite (Hnone y) by now left. apply IH. intros z Hz. apply Hnone. now right.
  - now apply IH.
Qed.




Lemma concat_sonar_unique files : NoDup (map fst (concat_sonar files)).
Proof.
  unfold concat_sonar.
  assert (H : NoDup (map fst (@nil sonar_row))) by constructor.
  revert H. generalize (@nil sonar_row) as df.
  induction files as [|f fs IH]; intros df H; simpl; [assumption|].
  apply IH. apply nodup_drop_duplicated.
Qed.








End Merge.

(** * Further properties of the code *)

(** ** process_tilt.py *)

Section TiltMore.

Import ProcessTilt.

(** X1: the deflection processor fails with [KeyError] exactly when the site
    is missing from the table of arm lengths or from the table of pivot
    heights, whatever the readings (an empty file included). *)
Theorem processData_key_error :
  forall (data : list data_row) (site : string),
    processData data site = Raise KeyError <->
    dict_find arm_length site = None \/ dict_find pivot_height site = None.
Proof.
  intros data site. split.
  - intros H.
    destruct (dict_find arm_length site) as [L|] eqn:HL; [|now left].
    destruct (dict_find pivot_height site) as [P|] eqn:HP; [|now right].
    exfalso. rewrite processData_split in H.
    unfold frame_before_baseline, convertAngles in H.
    rewrite (convertAngles_in_cells _ _ _ _ _ L P HL HP) in H. simpl in H.
    destruct (iloc0 _) as [b|e] eqn:E in H; simpl in H; [discriminate|].
    unfold iloc0 in E. destruct (filter notna _) in E; [|discriminate].
    injection E as <-. discriminate.
  - intros [H|H]; unfold processData, convertAngles, convertAngles_in, getitem.
    + now rewrite H.
    + rewrite H. now destruct (dict_find arm_length site).
Qed.

Lemma deflection_cell_nan L P flip a :
  deflection_cell L P flip a = NaN <->
  a = NaN \/ exists theta, a = Some theta /\ P ^ 2 < (L * (1 - cos theta)) ^ 2.
Proof.
  destruct a as [theta|].
  - unfold deflection_cell, np_sin, np_cos, np_sqrt, fsqr, fsub, fmul, fadd, fmap, lift2.
    replace (((1 - cos theta) * L) ^ 2) with ((L * (1 - cos theta)) ^ 2) by ring.
    destruct (Rlt_dec (P ^ 2 - (L * (1 - cos theta)) ^ 2) 0) as [Hn|Hn].
    + split.
      * intros _. right. exists theta. split; [reflexivity|lra].
      * intros _. now destruct flip.
    + split.
      * destruct flip; discriminate.
      * intros [H|(t & Ht & Hlt)]; [discriminate|].
        injection Ht as <-. lra.
  - split; [now left|]. intros _. now destruct flip.
Qed.

(** X2: the conversion returns one deflection per angle, and a deflection is
    missing exactly when the angle is missing or outside the domain of the
    geometry, [P^2 < (L * (1 - cos theta))^2]: no error is raised there. *)
Theorem convertAngles_missing :
  forall (arm_length pivot_height : dict R) (site : string) (L P : R)
         (angle_rads : list float) (flip : bool),
    dict_find arm_length site = Some L ->
    dict_find pivot_height site = Some P ->
    exists dY,
      convertAngles_in arm_length pivot_height angle_rads site flip = Ok dY /\
      List.length dY = List.length angle_rads /\
      forall i a,
        nth_error angle_rads i = Some a ->
        (nth_error dY i = Some NaN <->
         a = NaN \/
         exists theta, a = Some theta /\ P ^ 2 < (L * (1 - cos theta)) ^ 2).
Proof.
  intros al ph site L P angles flip HL HP.
  exists (map (deflection_cell L P flip) angles).
  split; [now apply convertAngles_in_cells|].
  split; [apply length_map|].
  intros i a Ha. rewrite nth_error_map, Ha. simpl.
  rewrite <- (deflection_cell_nan L P flip a).
  split; [now intros [= ->]|now intros ->].
Qed.

Lemma half_turn_out_of_domain : 120 ^ 2 < (1470 * (1 - cos PI)) ^ 2.
Proof. rewrite cos_PI. lra. Qed.

Lemma convertAngles_missing_witness :
  exists dY,
    convertAngles [Some PI] "site_1" false = Ok dY /\
    List.length dY = 1%nat /\
    forall i a,
      nth_error [Some PI] i = Some a ->
      (nth_error dY i = Some NaN <->
       a = NaN \/
       exists theta, a = Some theta /\ 120 ^ 2 < (1470 * (1 - cos theta)) ^ 2).
Proof.
  apply (convertAngles_missing arm_length pivot_height "site_1" 1470 120
           [Some PI] false); reflexivity.
Defined.

Lemma in_zip_with_nth {A B C} (f : A -> B -> C) l m i a b :
  nth_error l i = Some a -> nth_error m i = Some b -> In (f a b) (zip_with f l m).
Proof.
  revert m i. induction l as [|x l IH]; intros [|y m] [|i]; simpl; try discriminate.
  - intros [= ->] [= ->]. now left.
  - intros Ha Hb. right. now apply (IH m i).
Qed.

Lemma frame_before_baseline_holds data site L P d :
  dict_find arm_length site = Some L ->
  dict_find pivot_height site = Some P ->
  In d data ->
  in_period (index d) = true ->
  exists rows,
    frame_before_baseline data site = Ok rows /\
    In (drop_cold (mk_row (index d) (fillna0 (logger_temp_c d))
                     (fillna0 (deflection_cell L P false (angle_1 d))))) rows.
Proof.
  intros HL HP Hd Hp.
  unfold frame_before_baseline, convertAngles.
  rewrite (convertAngles_in_cells _ _ _ _ _ L P HL HP). simpl.
  eexists. split; [reflexivity|].
  apply in_map.
  unfold in_period in Hp. apply andb_true_iff in Hp. destruct Hp as [Hs He].
  apply filter_In. split; [|exact He].
  apply filter_In. split; [|exact Hs].
  apply in_sort_index_by.
  rewrite (map_map angle_1), zip_with_map_r.
  apply in_map_iff. exists (mk_row (index d) (logger_temp_c d)
                              (deflection_cell L P false (angle_1 d))).
  split; [reflexivity|].
  apply in_map_iff. now exists d.
Qed.

(** X3: a reading of the analysis period whose angle is missing or outside
    the domain of the geometry, and whose logger temperature is not below
    -35, is processed and comes out with the absolute deflection 0: the
    zero fill hides the missing conversion. *)
Theorem processData_missing_conversion_is_zero :
  forall (data : list data_row) (site : string) (L P : R) (d : data_row),
    dict_find arm_length site = Some L ->
    dict_find pivot_height site = Some P ->
    In d data ->
    in_period (index d) = true ->
    (angle_1 d = NaN \/
     exists theta, angle_1 d = Some theta /\ P ^ 2 < (L * (1 - cos theta)) ^ 2) ->
    flt (fillna0 (logger_temp_c d)) (-35) = false ->
    exists out r,
      processData data site = Ok out /\
      In r out /\ o_index r = index d /\ o_h1_mm r = Some 0.
Proof.
  intros data site L P d HL HP Hd Hp Hna Hwarm.
  destruct (frame_before_baseline_holds data site L P d HL HP Hd Hp)
    as (rows & Hrows & Hin).
  apply deflection_cell_nan with (flip := false) in Hna.
  rewrite Hna in Hin. unfold drop_cold in Hin. simpl in Hin.
  rewrite Hwarm in Hin.
  assert (Hsome : exists r, In r rows /\ r_h1_mm r <> NaN).
  { eexists. split; [exact Hin|]. discriminate. }
  destruct (processData_succeeds _ _ _ Hrows Hsome) as (out & Hout).
  exists out.
  destruct (processData_inv _ _ _ Hout) as (rows' & base & rest & Hrows' & _ & ->).
  rewrite Hrows in Hrows'. injection Hrows' as <-.
  eexists. split; [exact Hout|].
  split; [apply in_map; exact Hin|]. split; reflexivity.
Qed.

Lemma processData_missing_conversion_is_zero_witness :
  exists out r,
    processData half_turn_data "site_1" = Ok out /\
    In r out /\ o_index r = to_datetime 2020 1 1 /\ o_h1_mm r = Some 0.
Proof.
  apply (processData_missing_conversion_is_zero half_turn_data "site_1" 1470 120
           (mk_data (to_datetime 2020 1 1) (Some PI) NaN (Some 0))).
  - reflexivity.
  - reflexivity.
  - now left.
  - reflexivity.
  - right. exists PI. split; [reflexivity|exact half_turn_out_of_domain].
  - apply flt_false. lra.
Defined.

Lemma deflection_cell_flip L P a :
  deflection_cell L P true (fmap Ropp a) = deflection_cell L P false a.
Proof.
  destruct a as [theta|]; [|reflexivity].
  unfold deflection_cell, np_sin, np_cos, fmap, fmul, fsub, lift2.
  rewrite sin_neg, cos_neg.
  replace (-1 * (- sin theta * L)) with (sin theta * L) by ring.
  reflexivity.
Qed.

(** X4: converting the opposite angles with [flip] set gives the deflections
    of the angles themselves without [flip]: a logger mounted backwards and
    flipped reads as a logger mounted forwards. *)
Theorem convertAngles_flip_opposite :
  forall (arm_length pivot_height : dict R) (angle_rads : list float) (site : string),
    convertAngles_in arm_length pivot_height (map (fmap Ropp) angle_rads) site true
    = convertAngles_in arm_length pivot_height angle_rads site false.
Proof.
  intros al ph angles site.
  destruct (dict_find al site) as [L|] eqn:HL.
  2:{ unfold convertAngles_in, getitem. now rewrite HL. }
  destruct (dict_find ph site) as [P|] eqn:HP.
  2:{ unfold convertAngles_in, getitem. now rewrite HL, HP. }
  rewrite !(convertAngles_in_cells _ _ _ _ _ L P HL HP), map_map.
  f_equal. apply map_ext. intros a. apply deflection_cell_flip.
Qed.

(** X5: on the domain of the geometry, boundary included, the pivot adds
    between nothing and its own height to the rise of the arm. *)
Theorem convertAngles_bounds :
  forall (arm_length pivot_height : dict R) (site : string) (L P : R)
         (angle_rads : list float) (i : nat) (theta : R),
    dict_find arm_length site = Some L ->
    dict_find pivot_height site = Some P ->
    nth_error angle_rads i = Some (Some theta) ->
    Rabs (L * (1 - cos theta)) <= P ->
    exists dY h,
      convertAngles_in arm_length pivot_height angle_rads site false = Ok dY /\
      nth_error dY i = Some (Some h) /\
      L * sin theta <= h <= L * sin theta + P.
Proof.
  intros al ph site L P angles i theta HL HP Hi Hdom.
  assert (HP0 : 0 <= P) by (pose proof (Rabs_pos (L * (1 - cos theta))); lra).
  assert (Hsq : 0 <= P ^ 2 - (L * (1 - cos theta)) ^ 2).
  { unfold Rabs in Hdom. destruct (Rcase_abs (L * (1 - cos theta))); nra. }
  exists (map (deflection_cell L P false) angles),
         (L * sin theta + sqrt (P ^ 2 - (L * (1 - cos theta)) ^ 2)).
  split; [now apply convertAngles_in_cells|]. split.
  - rewrite nth_error_map, Hi. simpl. f_equal.
    unfold deflection_cell, np_sin, np_cos, np_sqrt, fsqr, fsub, fmul, fadd, fmap, lift2.
    replace (((1 - cos theta) * L) ^ 2) with ((L * (1 - cos theta)) ^ 2) by ring.
    destruct (Rlt_dec _ 0) as [Hn|_]; [simpl in *; lra|].
    simpl. f_equal. ring.
  - pose proof (sqrt_pos (P ^ 2 - (L * (1 - cos theta)) ^ 2)) as H0.
    assert (H1 : sqrt (P ^ 2 - (L * (1 - cos theta)) ^ 2) <= P).
    { rewrite <- (sqrt_pow2 P HP0) at 2. apply sqrt_le_1_alt.
      pose proof (pow2_ge_0 (L * (1 - cos theta))). lra. }
    lra.
Qed.

Lemma convertAngles_bounds_witness :
  exists dY h,
    convertAngles [Some 0] "site_1" false = Ok dY /\
    nth_error dY 0 = Some (Some h) /\
    1470 * sin 0 <= h <= 1470 * sin 0 + 120.
Proof.
  apply (convertAngles_bounds arm_length pivot_height "site_1" 1470 120
           [Some 0] 0%nat 0); try reflexivity.
  rewrite cos_0. replace (1470 * (1 - 1)) with 0 by ring. rewrite Rabs_R0. lra.
Defined.

(** *** Sorted frames *)

Lemma insert_row_sorted {A} (key : A -> Z) x l :
  Sorted (fun a b => (key a <= key b)%Z) l ->
  Sorted (fun a b => (key a <= key b)%Z) (insert_row key x l).
Proof.
  induction l as [|y l IH]; simpl; intros H.
  - repeat constructor.
  - destruct (key y <? key x)%Z eqn:E.
    + apply Z.ltb_lt in E. inversion H as [|? ? Hs Hh]; subst.
      constructor; [now apply IH|].
      destruct l as [|z l]; simpl.
      * constructor. lia.
      * destruct (key z <? key x)%Z; constructor; [|lia].
        now inversion Hh.
    + apply Z.ltb_ge in E. constructor; [assumption|]. now constructor.
Qed.

Lemma sort_index_by_sorted {A} (key : A -> Z) l :
  StronglySorted (fun a b => (key a <= key b)%Z) (sort_index_by key l).
Proof.
  apply Sorted_StronglySorted.
  - intros a b c Hab Hbc. lia.
  - induction l as [|x l IH]; simpl; [constructor|].
    now apply insert_row_sorted.
Qed.

Lemma filter_strongly_sorted {A} (R : A -> A -> Prop) (p : A -> bool) l :
  StronglySorted R l -> StronglySorted R (filter p l).
Proof.
  induction 1 as [|a l Hs IH Hall]; simpl; [constructor|].
  destruct (p a); [|assumption].
  constructor; [assumption|].
  rewrite Forall_forall in *. intros x Hx. apply filter_In in Hx. now apply Hall.
Qed.

Lemma length_insert_row {A} (key : A -> Z) x l :
  List.length (insert_row key x l) = S (List.length l).
Proof.
  induction l as [|y l IH]; simpl; [reflexivity|].
  destruct (key y <? key x)%Z; simpl; now rewrite ?IH.
Qed.

Lemma length_sort_index_by {A} (key : A -> Z) l :
  List.length (sort_index_by key l) = List.length l.
Proof.
  induction l as [|x l IH]; simpl; [reflexivity|].
  now rewrite length_insert_row, IH.
Qed.

Lemma length_filter_le {A} (p : A -> bool) l :
  (List.length (filter p l) <= List.length l)%nat.
Proof.
  induction l as [|x l IH]; simpl; [lia|]. destruct (p x); simpl; lia.
Qed.

(** X6: the frame the deflection processor returns is in ascending order of
    timestamp, holds only timestamps of the analysis period, both ends
    included, and has at most as many rows as the file. *)
Theorem processData_sorted_in_period :
  forall (data : list data_row) (site : string) (out : list out_row),
    processData data site = Ok out ->
    StronglySorted Z.le (map o_index out) /\
    (forall r, In r out -> (start_date <= o_index r <= end_date)%Z) /\
    (List.length out <= List.length data)%nat.
Proof.
  intros data site out H.
  apply processData_inv in H. destruct H as (rows & base & rest & Hrows & _ & ->).
  assert (Hidx : map o_index (map (with_relative (Some base)) rows)
                 = filter in_period (sort_index_by (fun t => t) (map index data))).
  { rewrite map_map. simpl. change (fun x => r_index x) with r_index.
    now apply (frame_before_baseline_index data site). }
  split; [|split].
  - rewrite Hidx. apply filter_strongly_sorted.
    apply (sort_index_by_sorted (fun t : Z => t)).
  - intros r Hr.
    assert (Hin : In (o_index r) (map o_index (map (with_relative (Some base)) rows)))
      by now apply in_map.
    rewrite Hidx in Hin. apply filter_In in Hin. destruct Hin as [_ Hp].
    unfold in_period in Hp. apply andb_true_iff in Hp.
    rewrite Z.leb_le, Z.leb_le in Hp. exact Hp.
  - rewrite <- (length_map o_index), Hidx.
    etransitivity; [apply length_filter_le|].
    rewrite length_sort_index_by, length_map. apply le_n.
Qed.

Lemma processData_sorted_in_period_witness :
  StronglySorted Z.le
    (map o_index
       [mk_out (to_datetime 2020 1 1) (Some (-40)) NaN NaN;
        mk_out (to_datetime 2020 1 2) (Some (-34)) (Some 120) (Some (120 - 120))]).
Proof.
  exact (proj1 (processData_sorted_in_period cold_data "site_1" _ cold_data_processed)).
Defined.

End TiltMore.

(** ** Left join with the meteorological frame *)

Section MetData.

Import ProcessSnow.

Lemma filter_none {A} (p : A -> bool) l :
  (forall x, In x l -> p x = false) -> filter p l = [].
Proof.
  induction l as [|a l IH]; simpl; intros H; [reflexivity|].
  rewrite (H a) by now left. apply IH. intros x Hx. apply H. now right.
Qed.

Lemma filter_unique_date (met_df : list met_row) (t : timestamp) :
  NoDup (map date_time met_df) ->
  filter (fun m => (date_time m =? t)%Z) met_df
  = match find (fun m => (date_time m =? t)%Z) met_df with
    | Some m => [m]
    | None => []
    end.
Proof.
  induction met_df as [|m l IH]; simpl; [reflexivity|].
  intros H. inversion H as [|? ? Hn Hd]; subst.
  destruct (date_time m =? t)%Z eqn:E.
  - f_equal. apply Z.eqb_eq in E.
    apply filter_none. intros x Hx.
    destruct (date_time x =? t)%Z eqn:Ex; [|reflexivity].
    apply Z.eqb_eq in Ex. exfalso. apply Hn.
    rewrite E, <- Ex. now apply in_map.
  - now apply IH.
Qed.

Lemma flat_map_singleton {A B} (f : A -> list B) (g : A -> B) l :
  (forall a, f a = [g a]) -> flat_map f l = map g l.
Proof.
  intros H. induction l as [|a l IH]; [reflexivity|].
  cbn [flat_map map]. now rewrite H, IH.
Qed.

(** X7: when the meteorological frame holds every date once, [getMetData]
    returns the rows of the frame it is given, each once and in their order,
    with the meteorological row of the same date when there is one and with
    missing values otherwise. *)
Theorem getMetData_unique_dates :
  forall (A : Type) (key : A -> timestamp) (df : list A) (met_df : list met_row),
    NoDup (map date_time met_df) ->
    getMetData key df met_df
    = map (fun a => (a, find (fun m => (date_time m =? key a)%Z) met_df)) df.
Proof.
  intros A key df met_df Hnd. unfold getMetData, merge_left.
  apply flat_map_singleton. intros a.
  rewrite (filter_unique_date met_df (key a) Hnd).
  now destruct (find _ met_df).
Qed.

Lemma getMetData_unique_dates_witness :
  getMetData index [mk_sdf (to_datetime 2021 1 5) (Some 1) (Some 1) NaN;
                    mk_sdf (to_datetime 2021 1 6) (Some 2) (Some 2) NaN] one_day_met
  = map (fun a => (a, find (fun m => (date_time m =? index a)%Z) one_day_met))
        [mk_sdf (to_datetime 2021 1 5) (Some 1) (Some 1) NaN;
         mk_sdf (to_datetime 2021 1 6) (Some 2) (Some 2) NaN].
Proof.
  apply (getMetData_unique_dates sdf_row index).
  unfold one_day_met. simpl. constructor; [intros []|constructor].
Defined.

End MetData.

(** ** process_snow.py *)

Section SnowMore.

Import ProcessSnow.

Lemma map_strongly_sorted {A} (key : A -> Z) (R : Z -> Z -> Prop) l :
  StronglySorted (fun a b => R (key a) (key b)) l ->
  StronglySorted R (map key l).
Proof.
  induction 1 as [|a l Hs IH Hall]; simpl; constructor; [assumption|].
  rewrite Forall_forall in *. intros x Hx.
  apply in_map_iff in Hx. destruct Hx as (b & <- & Hb). now apply Hall.
Qed.

(** X8: the snow frame [processData] returns is in ascending order of date
    and holds the readings of the analysis period of the snow loggers, both
    ends included, and only those, each with its depth in inches multiplied
    by 2.54 (a missing depth stays missing). *)
Theorem snow_processData_frame :
  forall data : list raw_row,
    StronglySorted Z.le (map s_index (processData data)) /\
    (forall r, In r (processData data) ->
       (start_date <= s_index r <= end_date)%Z /\
       exists d, In d data /\
                 r = mk_snow (date d) (fmul (snow_depth d) (Some (254 / 100)))) /\
    (forall d, In d data ->
       (start_date <= date d <= end_date)%Z ->
       In (mk_snow (date d) (fmul (snow_depth d) (Some (254 / 100))))
          (processData data)).
Proof.
  intros data. unfold processData. split; [|split].
  - apply map_strongly_sorted.
    do 2 apply filter_strongly_sorted. apply sort_index_by_sorted.
  - intros r Hr.
    apply filter_In in Hr. destruct Hr as [Hr He].
    apply filter_In in Hr. destruct Hr as [Hr Hs].
    apply in_sort_index_by in Hr.
    apply in_map_iff in Hr. destruct Hr as (d & <- & Hd).
    apply Z.leb_le in He, Hs. split; [now split|]. now exists d.
  - intros d Hd [Hs He].
    apply filter_In. split; [|now apply Z.leb_le].
    apply filter_In. split; [|now apply Z.leb_le].
    apply in_sort_index_by. apply in_map_iff. now exists d.
Qed.

(** *** Daily means *)







(** *** Invariants of the heave correction *)

Lemma fsub_zero x : fsub x (Some 0) = x.
Proof. destruct x as [x|]; [|reflexivity]. simpl. f_equal. ring. Qed.

Lemma fsub_some_nan x y : fsub x (Some y) = NaN <-> x = NaN.
Proof.
  destruct x; unfold NaN; simpl; split; intros H; try discriminate; reflexivity.
Qed.

Lemma fillna0_some x : exists y, fillna0 x = Some y.
Proof. destruct x as [x|]; [now exists x|now exists 0]. Qed.

Lemma written_settled t sd dh : row_settled (written t sd dh).
Proof.
  unfold row_settled, written, null_negative. simpl snow_depth_cm.
  destruct (flt sd 0) eqn:E; simpl.
  - split; [reflexivity|tauto].
  - split; [assumption|].
    destruct (fillna0_some (fmul dh (Some (1 / 10)))) as (y & ->).
    symmetry. apply fsub_some_nan.
Qed.

Lemma settle_settled r : row_settled r -> row_settled (settle r).
Proof.
  unfold row_settled, settle, null_negative. simpl. intros [H1 H2].
  rewrite H1. simpl. now split.
Qed.

Lemma step_row_settled site sdf_copy yw r :
  row_settled r -> row_settled (step_row site sdf_copy yw r).
Proof.
  intros H. unfold step_row.
  destruct (lookup (fst _) (index r)); [destruct (lookup (snd _) (index r))|];
    try apply written_settled; now apply settle_settled.
Qed.

Lemma loop_row_settled_inv site sdf_copy seasons r :
  row_settled r -> row_settled (loop_row site sdf_copy seasons r).
Proof.
  unfold loop_row. revert r.
  induction seasons as [|yw ws IH]; intros r H; simpl; [assumption|].
  apply IH. now apply step_row_settled.
Qed.

(** X10: the frame [correct_for_heave] returns has the dates of the snow
    frame, each in its place; none of its rows holds a negative snow depth,
    and a row holds a corrected snow depth exactly when it holds a snow
    depth. *)
Theorem correct_for_heave_frame :
  forall (sdf : list snow_row) (tdf : list tilt_row) (site : string),
    map index (correct_for_heave sdf tdf site) = map s_index sdf /\
    forall r, In r (correct_for_heave sdf tdf site) ->
      flt (snow_depth_cm r) 0 = false /\
      (snow_depth_cm r = NaN <-> snow_sub_heave r = NaN).
Proof.
  intros sdf tdf site. unfold correct_for_heave. rewrite season_loop_rows.
  split.
  - unfold blank. rewrite !map_map. apply map_ext. intros s.
    now rewrite index_loop_row.
  - intros r Hr. apply in_map_iff in Hr. destruct Hr as (b & <- & Hb).
    apply loop_row_settled_inv.
    unfold blank in Hb. apply in_map_iff in Hb. destruct Hb as (s & <- & _).
    split; [reflexivity|]. simpl. tauto.
Qed.

Lemma heave_settle r : heave_cm (settle r) = NaN.
Proof. unfold settle, null_negative. simpl. now destruct (flt _ _). Qed.

Lemma out_of_window_out_of_season site year w sdf_copy t :
  in_window w t = false ->
  ~ In t (map c_index (season site year w sdf_copy)).
Proof.
  intros Hout Hin. apply season_in_window in Hin. congruence.
Qed.

(** X11: [heave_cm] is assigned as a whole column in every season, so the
    frame returned holds a heave only inside the window of the last season
    of the table, 2022: everywhere else [heave_cm] is missing, also where a
    tilt measurement exists. *)
Theorem heave_of_last_season_only :
  forall (sdf : list snow_row) (tdf : list tilt_row) (site : string) (r : sdf_row),
    In r (correct_for_heave sdf tdf site) ->
    in_window (to_datetime 2022 9 27, to_datetime 2023 6 1) (index r) = false ->
    heave_cm r = NaN.
Proof.
  intros sdf tdf site r Hr Hout.
  unfold correct_for_heave in Hr. rewrite season_loop_rows in Hr.
  apply in_map_iff in Hr. destruct Hr as (b & <- & _).
  rewrite index_loop_row in Hout.
  unfold snow_on_ground.
  change [("2019", (to_datetime 2019 10 5, to_datetime 2020 5 23));
          ("2020", (to_datetime 2020 10 9, to_datetime 2021 5 14));
          ("2021", (to_datetime 2021 9 27, to_datetime 2022 5 10));
          ("2022", (to_datetime 2022 9 27, to_datetime 2023 6 1))]
    with ([("2019", (to_datetime 2019 10 5, to_datetime 2020 5 23));
           ("2020", (to_datetime 2020 10 9, to_datetime 2021 5 14));
           ("2021", (to_datetime 2021 9 27, to_datetime 2022 5 10))]
          ++ [("2022", (to_datetime 2022 9 27, to_datetime 2023 6 1))])%list.
  rewrite loop_row_app.
  set (x := loop_row site (with_heave sdf tdf) _ b).
  assert (Hx : index x = index b) by apply index_loop_row.
  change (loop_row site (with_heave sdf tdf)
            [("2022", (to_datetime 2022 9 27, to_datetime 2023 6 1))] x)
    with (step_row site (with_heave sdf tdf)
            ("2022", (to_datetime 2022 9 27, to_datetime 2023 6 1)) x).
  rewrite step_row_out_of_season; [apply heave_settle|].
  rewrite Hx. now apply out_of_window_out_of_season.
Qed.

Ltac date_numbers :=
  repeat match goal with
    | |- context [to_datetime ?y ?m ?d] =>
        let v := eval vm_compute in (to_datetime y m d) in
        change (to_datetime y m d) with v
    end.

Ltac eval_heave_correction :=
  unfold correct_for_heave, season_loop, snow_on_ground;
  unfold season_step, season, corrected, zero_at_start, loc, null_negative;
  repeat first
    [ progress cbn -[IZR to_datetime Z.ltb Z.leb Z.eqb flt fgt
                     Rminus Rmult Rplus Rdiv Ropp]
    | progress decide_dates
    | rewrite flt_nan
    | rewrite flt_true by lra
    | rewrite flt_false by lra ].

Lemma two_day_corrected :
  correct_for_heave two_day_snow two_day_tilt "site_1"
  = [mk_sdf (to_datetime 2020 10 9) (Some (5 - 5))
       (Some (5 - 5 - (1 - 1) * (1 / 10))) NaN;
     mk_sdf (to_datetime 2020 10 10) (Some (6 - 5))
       (Some (6 - 5 - (3 - 1) * (1 / 10))) NaN].
Proof. unfold two_day_snow, two_day_tilt. eval_heave_correction. reflexivity. Qed.

Lemma heave_of_last_season_only_witness :
  heave_cm (mk_sdf (to_datetime 2020 10 10) (Some (6 - 5))
              (Some (6 - 5 - (3 - 1) * (1 / 10))) NaN) = NaN.
Proof.
  apply (heave_of_last_season_only two_day_snow two_day_tilt "site_1").
  - rewrite two_day_corrected. right. now left.
  - vm_compute. reflexivity.
Defined.

(** *** Without tilt measurement *)

Lemma lookup_in s t v : lookup s t = Some v -> In (t, v) s.
Proof.
  induction s as [|[i u] s IH]; simpl; [discriminate|].
  destruct (i =? t)%Z eqn:E.
  - apply Z.eqb_eq in E. intros [= <-]. left. now rewrite E.
  - intros H. right. now apply IH.
Qed.

Lemma corrected_heave_missing s start t dh :
  (forall c, In c s -> c_dh1_mm c = NaN) ->
  lookup (snd (corrected s start)) t = Some dh -> dh = NaN.
Proof.
  intros Hall H. apply lookup_in in H.
  unfold corrected, zero_at_start in H.
  destruct (loc (snow_depth_col s) start) as [sd0|e]; simpl in H.
  - destruct (loc (dh1_col s) start) as [dh0|e]; simpl in H.
    + unfold sub_scalar, dh1_col in H. rewrite map_map in H.
      apply in_map_iff in H. destruct H as (c & Hc & Hin). simpl in Hc.
      injection Hc as _ <-. now rewrite (Hall c Hin).
    + unfold dh1_col in H. apply in_map_iff in H. destruct H as (c & Hc & Hin).
      injection Hc as _ <-. now apply Hall.
  - unfold dh1_col in H. apply in_map_iff in H. destruct H as (c & Hc & Hin).
    injection Hc as _ <-. now apply Hall.
Qed.

Lemma with_heave_without_tilt sdf tdf c :
  (forall s, In s sdf -> ~ In (s_index s) (map t_index tdf)) ->
  In c (with_heave sdf tdf) -> c_dh1_mm c = NaN.
Proof.
  intros Hno Hc. unfold with_heave in Hc.
  apply in_map_iff in Hc. destruct Hc as (s & <- & Hs). simpl.
  assert (H : lookup (map (fun t => (t_index t, t_dh1_mm t)) tdf) (s_index s) = None).
  { apply lookup_none_iff. rewrite map_map. simpl. now apply Hno. }
  now rewrite H.
Qed.

Lemma step_row_without_tilt site sdf_copy yw r :
  (forall c, In c sdf_copy -> c_dh1_mm c = NaN) ->
  snow_sub_heave r = snow_depth_cm r /\ heave_cm r = NaN ->
  snow_sub_heave (step_row site sdf_copy yw r) = snow_depth_cm (step_row site sdf_copy yw r) /\
  heave_cm (step_row site sdf_copy yw r) = NaN.
Proof.
  intros Hall [H1 H2]. unfold step_row.
  destruct (lookup (fst _) (index r)) as [sd|] eqn:Esd.
  - destruct (lookup (snd _) (index r)) as [dh|] eqn:Edh.
    + assert (Hdh : dh = NaN).
      { apply (corrected_heave_missing _ _ _ _ (fun c Hc => Hall c (season_rows _ _ _ _ _ Hc)) Edh). }
      subst dh. unfold written, null_negative. simpl.
      destruct (flt sd 0); simpl; [now split|].
      split; [apply fsub_zero|reflexivity].
    + unfold settle, null_negative. simpl. destruct (flt _ _); simpl; now split.
  - unfold settle, null_negative. simpl. destruct (flt _ _); simpl; now split.
Qed.

(** X12: when no date of the snow frame has a tilt measurement, the heave
    counts for nothing: in every row returned the corrected snow depth is
    the snow depth, and [heave_cm] is missing. *)
Theorem correct_for_heave_without_tilt :
  forall (sdf : list snow_row) (tdf : list tilt_row) (site : string),
    (forall s, In s sdf -> ~ In (s_index s) (map t_index tdf)) ->
    forall r, In r (correct_for_heave sdf tdf site) ->
      snow_sub_heave r = snow_depth_cm r /\ heave_cm r = NaN.
Proof.
  intros sdf tdf site Hno r Hr.
  unfold correct_for_heave in Hr. rewrite season_loop_rows in Hr.
  apply in_map_iff in Hr. destruct Hr as (b & <- & Hb).
  assert (Hb0 : snow_sub_heave b = snow_depth_cm b /\ heave_cm b = NaN).
  { unfold blank in Hb. apply in_map_iff in Hb. destruct Hb as (s & <- & _).
    now split. }
  clear Hb. unfold loop_row. revert b Hb0.
  induction snow_on_ground as [|yw ws IH]; intros b Hb0; simpl; [assumption|].
  apply IH. apply step_row_without_tilt; [|assumption].
  intros c Hc. now apply (with_heave_without_tilt sdf tdf).
Qed.

Lemma correct_for_heave_without_tilt_witness :
  snow_sub_heave (mk_sdf (to_datetime 2020 10 10) (Some 3) (Some (3 - 0)) NaN)
  = snow_depth_cm (mk_sdf (to_datetime 2020 10 10) (Some 3) (Some (3 - 0)) NaN) /\
  heave_cm (mk_sdf (to_datetime 2020 10 10) (Some 3) (Some (3 - 0)) NaN) = NaN.
Proof.
  apply (correct_for_heave_without_tilt late_snow [] "site_1").
  - intros s _ [].
  - rewrite late_snow_corrected. now left.
Defined.

(** *** The season of 2019 at site 2 *)

Lemma season_site_2_2019 w sdf_copy t :
  In t (map c_index (season "site_2" "2019" w sdf_copy)) ->
  (t < to_datetime 2020 4 12)%Z.
Proof.
  intros Hin. apply in_map_iff in Hin. destruct Hin as (c & <- & Hc).
  unfold season in Hc. simpl in Hc.
  apply filter_In in Hc. destruct Hc as [_ Hc]. now apply Z.ltb_lt.
Qed.

(** X13: at site 2 the season of 2019 stops on 2020-04-12: the rows from
    that day to the end of the window, 2020-05-23, are missing in every
    column of the frame returned. *)
Theorem site_2_season_2019_cut :
  forall (sdf : list snow_row) (tdf : list tilt_row) (r : sdf_row),
    In r (correct_for_heave sdf tdf "site_2") ->
    (to_datetime 2020 4 12 <= index r < to_datetime 2020 5 23)%Z ->
    snow_depth_cm r = NaN /\ snow_sub_heave r = NaN /\ heave_cm r = NaN.
Proof.
  intros sdf tdf r Hr Ht.
  unfold correct_for_heave in Hr. rewrite season_loop_rows in Hr.
  apply in_map_iff in Hr. destruct Hr as (b & <- & Hb).
  rewrite index_loop_row in Ht.
  unfold blank in Hb. apply in_map_iff in Hb. destruct Hb as (s & <- & _).
  simpl in Ht.
  unfold snow_on_ground. rewrite loop_row_out_of_season.
  - now cbn.
  - intros yw Hyw. simpl index.
    destruct Hyw as [<-|Hyw].
    + intros Hin. apply season_site_2_2019 in Hin. lia.
    + apply out_of_window_out_of_season. apply out_of_window_bounds.
      revert Ht. date_numbers. intros Ht.
      destruct Hyw as [<-|[<-|[<-|[]]]]; simpl; date_numbers; lia.
Qed.

Lemma april_snow_corrected :
  correct_for_heave april_snow [] "site_2"
  = [mk_sdf (to_datetime 2020 4 20) NaN NaN NaN].
Proof. unfold april_snow. eval_heave_correction. reflexivity. Qed.

Lemma site_2_season_2019_cut_witness :
  snow_depth_cm (mk_sdf (to_datetime 2020 4 20) NaN NaN NaN) = NaN /\
  snow_sub_heave (mk_sdf (to_datetime 2020 4 20) NaN NaN NaN) = NaN /\
  heave_cm (mk_sdf (to_datetime 2020 4 20) NaN NaN NaN) = NaN.
Proof.
  apply (site_2_season_2019_cut april_snow []).
  - rewrite april_snow_corrected. now left.
  - simpl index. vm_compute. split; [discriminate|reflexivity].
Defined.

(** *** A season zeroed at its first day *)

Lemma lookup_sub_scalar s b t :
  lookup (sub_scalar s b) t = option_map (fun v => fsub v b) (lookup s t).
Proof.
  induction s as [|[i v] s IH]; simpl; [reflexivity|].
  destruct (i =? t)%Z; [reflexivity|apply IH].
Qed.

Lemma zero_at_start_with_row s start c0 :
  find (fun c => (c_index c =? start)%Z) s = Some c0 ->
  zero_at_start s start
  = Ok (sub_scalar (snow_depth_col s) (c_snow_depth_cm c0),
        sub_scalar (dh1_col s) (c_dh1_mm c0)).
Proof.
  intros H. unfold zero_at_start, loc, snow_depth_col, dh1_col.
  rewrite !lookup_map_key, H. reflexivity.
Qed.

Lemma corrected_with_row s start c0 c t :
  find (fun c => (c_index c =? start)%Z) s = Some c0 ->
  find (fun c => (c_index c =? t)%Z) s = Some c ->
  lookup (fst (corrected s start)) t
  = Some (fsub (c_snow_depth_cm c) (c_snow_depth_cm c0)) /\
  lookup (snd (corrected s start)) t
  = Some (fsub (c_dh1_mm c) (c_dh1_mm c0)).
Proof.
  intros H0 Hc. unfold corrected. rewrite (zero_at_start_with_row _ _ _ H0).
  simpl. rewrite !lookup_sub_scalar. unfold snow_depth_col, dh1_col.
  rewrite !lookup_map_key, Hc. now split.
Qed.

Lemma find_index_in_season site year w sdf_copy t c :
  find (fun c => (c_index c =? t)%Z) (season site year w sdf_copy) = Some c ->
  In t (map c_index (season site year w sdf_copy)).
Proof.
  intros H. destruct (find_some _ _ H) as [Hin Heq].
  apply Z.eqb_eq in Heq. rewrite <- Heq. now apply in_map.
Qed.

(** The row the frame returned holds for a date of a season that has a row
    at its first day. *)
Lemma correct_for_heave_zeroed_row sdf tdf site year w c0 c r :
  In (year, w) snow_on_ground ->
  find (fun c => (c_index c =? fst w)%Z) (season site year w (with_heave sdf tdf))
  = Some c0 ->
  In r (correct_for_heave sdf tdf site) ->
  find (fun c => (c_index c =? index r)%Z) (season site year w (with_heave sdf tdf))
  = Some c ->
  r = written (index r) (fsub (c_snow_depth_cm c) (c_snow_depth_cm c0))
        (fsub (c_dh1_mm c) (c_dh1_mm c0)) \/
  r = settle (written (index r) (fsub (c_snow_depth_cm c) (c_snow_depth_cm c0))
                (fsub (c_dh1_mm c) (c_dh1_mm c0))).
Proof.
  intros Htab H0 Hr Hc.
  pose proof (find_index_in_season _ _ _ _ _ _ Hc) as Hin.
  destruct (correct_for_heave_row _ _ _ _ _ _ Htab Hr Hin)
    as (sd & dh & Hsd & Hdh & Hrow).
  destruct (corrected_with_row _ _ _ _ _ H0 Hc) as [Hsd' Hdh'].
  rewrite Hsd' in Hsd. rewrite Hdh' in Hdh.
  injection Hsd as <-. injection Hdh as <-. exact Hrow.
Qed.

(** X14: when the first day of a season of the table has a row without
    reading, the zeroing subtracts a missing value: every row of that season
    comes out without snow depth and without corrected snow depth, whatever
    was read. *)
Theorem missing_start_reading_blanks_season :
  forall (sdf : list snow_row) (tdf : list tilt_row) (site year : string)
         (w : timestamp * timestamp) (c0 : copy_row) (r : sdf_row),
    In (year, w) snow_on_ground ->
    find (fun c => (c_index c =? fst w)%Z) (season site year w (with_heave sdf tdf))
    = Some c0 ->
    c_snow_depth_cm c0 = NaN ->
    In r (correct_for_heave sdf tdf site) ->
    In (index r) (map c_index (season site year w (with_heave sdf tdf))) ->
    snow_depth_cm r = NaN /\ snow_sub_heave r = NaN.
Proof.
  intros sdf tdf site year w c0 r Htab H0 Hnan Hr Hin.
  destruct (find (fun c => (c_index c =? index r)%Z)
              (season site year w (with_heave sdf tdf))) as [c|] eqn:Hc.
  2:{ exfalso. apply in_map_iff in Hin. destruct Hin as (c & Hi & Hcin).
      pose proof (find_none _ _ Hc c Hcin) as Hf. simpl in Hf.
      rewrite Hi, Z.eqb_refl in Hf. discriminate. }
  destruct (correct_for_heave_zeroed_row _ _ _ _ _ _ _ _ Htab H0 Hr Hc) as [H|H];
    rewrite H, Hnan.
  - unfold written, null_negative. destruct (c_snow_depth_cm c); now cbn.
  - unfold settle, written, null_negative. destruct (c_snow_depth_cm c); now cbn.
Qed.

Lemma blank_start_corrected :
  correct_for_heave blank_start_snow [] "site_1"
  = [mk_sdf (to_datetime 2020 10 9) NaN NaN NaN;
     mk_sdf (to_datetime 2020 10 10) NaN NaN NaN].
Proof. unfold blank_start_snow. eval_heave_correction. reflexivity. Qed.

Lemma missing_start_reading_blanks_season_witness :
  snow_depth_cm (mk_sdf (to_datetime 2020 10 10) NaN NaN NaN) = NaN /\
  snow_sub_heave (mk_sdf (to_datetime 2020 10 10) NaN NaN NaN) = NaN.
Proof.
  apply (missing_start_reading_blanks_season blank_start_snow [] "site_1" "2020"
           (to_datetime 2020 10 9, to_datetime 2021 5 14)
           (mk_copy (to_datetime 2020 10 9) NaN NaN)).
  - right. now left.
  - unfold blank_start_snow, season. cbn -[to_datetime Z.ltb Z.leb Z.eqb].
    decide_dates. cbn -[to_datetime Z.ltb Z.leb Z.eqb]. decide_dates. reflexivity.
  - reflexivity.
  - rewrite blank_start_corrected. right. now left.
  - unfold blank_start_snow, season. cbn -[to_datetime Z.ltb Z.leb Z.eqb].
    decide_dates. cbn -[to_datetime Z.ltb Z.leb Z.eqb]. decide_dates.
    simpl. right. now left.
Defined.

(** X15: in a season of the table that has a row at its first day, a row
    whose snow depth less the one of the first day is not negative comes out
    with that difference as snow depth, and with that difference less a
    tenth of the heave since the first day (nothing where the heave is
    missing) as corrected snow depth. *)
Theorem zeroed_season_values :
  forall (sdf : list snow_row) (tdf : list tilt_row) (site year : string)
         (w : timestamp * timestamp) (c0 c : copy_row) (r : sdf_row),
    In (year, w) snow_on_ground ->
    find (fun c => (c_index c =? fst w)%Z) (season site year w (with_heave sdf tdf))
    = Some c0 ->
    In r (correct_for_heave sdf tdf site) ->
    find (fun c => (c_index c =? index r)%Z) (season site year w (with_heave sdf tdf))
    = Some c ->
    flt (fsub (c_snow_depth_cm c) (c_snow_depth_cm c0)) 0 = false ->
    snow_depth_cm r = fsub (c_snow_depth_cm c) (c_snow_depth_cm c0) /\
    snow_sub_heave r
    = fsub (fsub (c_snow_depth_cm c) (c_snow_depth_cm c0))
           (fillna0 (fmul (fsub (c_dh1_mm c) (c_dh1_mm c0)) (Some (1 / 10)))).
Proof.
  intros sdf tdf site year w c0 c r Htab H0 Hr Hc Hpos.
  destruct (correct_for_heave_zeroed_row _ _ _ _ _ _ _ _ Htab H0 Hr Hc) as [H|H];
    rewrite (written_kept _ _ _ Hpos) in H.
  - rewrite H. now cbn.
  - rewrite H. apply settle_kept. exact Hpos.
Qed.

Lemma two_day_season :
  season "site_1" "2020" (to_datetime 2020 10 9, to_datetime 2021 5 14)
    (with_heave two_day_snow two_day_tilt)
  = [mk_copy (to_datetime 2020 10 9) (Some 5) (Some 1);
     mk_copy (to_datetime 2020 10 10) (Some 6) (Some 3)].
Proof.
  unfold two_day_snow, two_day_tilt, season.
  repeat first [ progress cbn -[IZR to_datetime Z.ltb Z.leb Z.eqb]
               | progress decide_dates ].
  reflexivity.
Qed.

Lemma zeroed_season_values_witness :
  snow_depth_cm (mk_sdf (to_datetime 2020 10 10) (Some (6 - 5))
                   (Some (6 - 5 - (3 - 1) * (1 / 10))) NaN)
  = fsub (Some 6) (Some 5).
Proof.
  refine (proj1 (zeroed_season_values two_day_snow two_day_tilt "site_1" "2020"
                   (to_datetime 2020 10 9, to_datetime 2021 5 14)
                   (mk_copy (to_datetime 2020 10 9) (Some 5) (Some 1))
                   (mk_copy (to_datetime 2020 10 10) (Some 6) (Some 3))
                   (mk_sdf (to_datetime 2020 10 10) (Some (6 - 5))
                      (Some (6 - 5 - (3 - 1) * (1 / 10))) NaN) _ _ _ _ _)).
  - right. now left.
  - rewrite two_day_season. cbn -[to_datetime Z.eqb]. decide_dates. reflexivity.
  - rewrite two_day_corrected. right. now left.
  - rewrite two_day_season. cbn -[to_datetime Z.eqb]. decide_dates.
    cbn -[to_datetime Z.eqb]. decide_dates. reflexivity.
  - cbn -[flt IZR Rminus]. apply flt_false. lra.
Defined.

(** X16: in a season of the table whose first day has a reading, the row of
    the first day comes out with snow depth 0 and corrected snow depth 0. *)
Theorem season_starts_at_zero :
  forall (sdf : list snow_row) (tdf : list tilt_row) (site year : string)
         (w : timestamp * timestamp) (c0 : copy_row) (x : R) (r : sdf_row),
    In (year, w) snow_on_ground ->
    find (fun c => (c_index c =? fst w)%Z) (season site year w (with_heave sdf tdf))
    = Some c0 ->
    c_snow_depth_cm c0 = Some x ->
    In r (correct_for_heave sdf tdf site) ->
    index r = fst w ->
    snow_depth_cm r = Some 0 /\ snow_sub_heave r = Some 0.
Proof.
  intros sdf tdf site year w c0 x r Htab H0 Hx Hr Hi.
  assert (Hc : find (fun c => (c_index c =? index r)%Z)
                 (season site year w (with_heave sdf tdf)) = Some c0)
    by now rewrite Hi.
  assert (Hpos : flt (fsub (c_snow_depth_cm c0) (c_snow_depth_cm c0)) 0 = false).
  { rewrite Hx. simpl fsub. apply flt_false. lra. }
  assert (H : snow_depth_cm r = fsub (c_snow_depth_cm c0) (c_snow_depth_cm c0) /\
              snow_sub_heave r
              = fsub (fsub (c_snow_depth_cm c0) (c_snow_depth_cm c0))
                  (fillna0 (fmul (fsub (c_dh1_mm c0) (c_dh1_mm c0)) (Some (1 / 10))))).
  { destruct (correct_for_heave_zeroed_row _ _ _ _ _ _ _ _ Htab H0 Hr Hc) as [H|H];
      rewrite (written_kept _ _ _ Hpos) in H.
    - rewrite H. now cbn.
    - rewrite H. apply settle_kept. exact Hpos. }
  destruct H as [-> ->]. rewrite Hx.
  split; [simpl; f_equal; ring|].
  destruct (c_dh1_mm c0) as [d|]; simpl; f_equal; ring.
Qed.

Lemma season_starts_at_zero_witness :
  snow_depth_cm (mk_sdf (to_datetime 2020 10 9) (Some (5 - 5))
                   (Some (5 - 5 - (1 - 1) * (1 / 10))) NaN) = Some 0 /\
  snow_sub_heave (mk_sdf (to_datetime 2020 10 9) (Some (5 - 5))
                    (Some (5 - 5 - (1 - 1) * (1 / 10))) NaN) = Some 0.
Proof.
  apply (season_starts_at_zero two_day_snow two_day_tilt "site_1" "2020"
           (to_datetime 2020 10 9, to_datetime 2021 5 14)
           (mk_copy (to_datetime 2020 10 9) (Some 5) (Some 1)) 5).
  - right. now left.
  - rewrite two_day_season. cbn -[to_datetime Z.eqb]. decide_dates. reflexivity.
  - reflexivity.
  - rewrite two_day_corrected. now left.
  - reflexivity.
Defined.

End SnowMore.

(** ** merge_datasets.py *)

Section MergeMore.

Import MergeDatasets.

(** *** Dropping duplicates *)

Lemma filter_comm {A} (p q : A -> bool) l :
  filter p (filter q l) = filter q (filter p l).
Proof.
  induction l as [|a l IH]; simpl; [reflexivity|].
  destruct (p a) eqn:Ep, (q a) eqn:Eq; simpl; rewrite ?Ep, ?Eq, IH; reflexivity.
Qed.

Lemma filter_idem {A} (p : A -> bool) l : filter p (filter p l) = filter p l.
Proof.
  induction l as [|a l IH]; simpl; [reflexivity|].
  destruct (p a) eqn:Ep; simpl; rewrite ?Ep, IH; reflexivity.
Qed.

Lemma drop_duplicated_filter {A} (key : A -> option timestamp) k l :
  drop_duplicated key (filter (fun r => negb (index_eqb (key r) k)) l)
  = filter (fun r => negb (index_eqb (key r) k)) (drop_duplicated key l).
Proof.
  induction l as [|a l IH]; simpl; [reflexivity|].
  destruct (index_eqb (key a) k) eqn:E; simpl.
  - rewrite IH. apply index_eqb_eq in E. rewrite E.
    now rewrite filter_idem.
  - rewrite IH. f_equal. apply filter_comm.
Qed.

Lemma filter_true_all {A} (l : list A) : filter (fun _ => true) l = l.
Proof. induction l as [|a l IH]; simpl; now rewrite ?IH. Qed.

Lemma filter_and {A} (p q : A -> bool) l :
  filter p (filter q l) = filter (fun x => (p x && q x)%bool) l.
Proof.
  induction l as [|a l IH]; simpl; [reflexivity|].
  destruct (q a), (p a) eqn:Ep; simpl; rewrite ?Ep, IH; reflexivity.
Qed.

(** Dropping the duplicates of two frames, one after the other. *)
Lemma drop_duplicated_app {A} (key : A -> option timestamp) l1 l2 :
  drop_duplicated key (l1 ++ l2)
  = (drop_duplicated key l1
     ++ filter (index_not_in key l1) (drop_duplicated key l2))%list.
Proof.
  induction l1 as [|a l1 IH]; simpl.
  - unfold index_not_in. simpl. symmetry. apply filter_true_all.
  - f_equal. rewrite IH, filter_app. f_equal.
    rewrite filter_and. reflexivity.
Qed.

Lemma drop_duplicated_twice_app {A} (key : A -> option timestamp) l1 l2 :
  drop_duplicated key (drop_duplicated key l1 ++ l2)
  = drop_duplicated key (l1 ++ l2).
Proof.
  induction l1 as [|a l1 IH]; simpl; [reflexivity|].
  f_equal. rewrite <- IH.
  rewrite <- (drop_duplicated_filter key (key a)
                (filter (fun r' => negb (index_eqb (key r') (key a)))
                   (drop_duplicated key l1) ++ l2)%list).
  rewrite <- (drop_duplicated_filter key (key a) (drop_duplicated key l1 ++ l2)%list).
  rewrite !filter_app, filter_idem. reflexivity.
Qed.

Lemma concat_sonar_from df files :
  fold_left (fun df file => drop_duplicated fst (df ++ sonar_frame file)%list)
    files (drop_duplicated fst df)
  = drop_duplicated fst (df ++ flat_map sonar_frame files)%list.
Proof.
  revert df. induction files as [|f fs IH]; intros df; simpl.
  - now rewrite app_nil_r.
  - rewrite drop_duplicated_twice_app, IH, <- app_assoc. reflexivity.
Qed.

Lemma concat_sonar_closed files :
  concat_sonar files = drop_duplicated fst (flat_map sonar_frame files).
Proof. unfold concat_sonar. exact (concat_sonar_from [] files). Qed.

(** X17: merging the sonar files one after the other gives what dropping the
    duplicates of all their frames put end to end gives: the rows come in the
    order in which their timestamps first appear. *)
Theorem concat_sonar_all_at_once :
  forall files : list sonar_file,
    concat_sonar files = drop_duplicated fst (flat_map sonar_frame files).
Proof.
  intros files. unfold concat_sonar.
  exact (concat_sonar_from [] files).
Qed.

Lemma index_not_in_false {A} (key : A -> option timestamp) df r :
  (exists a, In a df /\ key a = key r) -> index_not_in key df r = false.
Proof.
  intros (a & Ha & Hk). unfold index_not_in.
  destruct (forallb _ df) eqn:E; [|reflexivity].
  rewrite forallb_forall in E. specialize (E a Ha).
  rewrite Hk, index_eqb_refl in E. discriminate.
Qed.

(** X18: merging again sonar files that are already merged changes
    nothing. *)
Theorem concat_sonar_again :
  forall files again : list sonar_file,
    (forall f, In f again -> In f files) ->
    concat_sonar (files ++ again) = concat_sonar files.
Proof.
  intros files again Hsub.
  rewrite !concat_sonar_closed, flat_map_app, drop_duplicated_app.
  rewrite filter_none; [apply app_nil_r|].
  intros r Hr. apply index_not_in_false.
  apply in_drop_duplicated in Hr.
  apply in_flat_map in Hr. destruct Hr as (f & Hf & Hrf).
  exists r. split; [|reflexivity].
  apply in_flat_map. exists f. split; [now apply Hsub|assumption].
Qed.

Lemma concat_sonar_again_witness :
  concat_sonar ([first_sonar_file; second_sonar_file] ++ [first_sonar_file])
  = concat_sonar [first_sonar_file; second_sonar_file].
Proof.
  apply (concat_sonar_again [first_sonar_file; second_sonar_file] [first_sonar_file]).
  intros f [<-|[]]. now left.
Defined.

(** *** Rows of the merged sonar frame *)

Lemma sonar_frame_rows file r :
  In r (sonar_frame file) ->
  (exists t x, r = (Some t, Some x) /\ - MAX_SNOW_VAL < x < MAX_SNOW_VAL) \/
  r = (None, NaN).
Proof.
  unfold sonar_frame, where_. intros Hr.
  apply in_map_iff in Hr. destruct Hr as (r1 & <- & Hr1).
  apply in_map_iff in Hr1. destruct Hr1 as (r0 & <- & Hr0).
  assert (H0 : exists t, fst r0 = Some t).
  { destruct (contains "site_4" (sonar_path file)).
    - apply in_map_iff in Hr0. destruct Hr0 as (r' & <- & Hr').
      apply in_map_iff in Hr'. destruct Hr' as (l & <- & _). now eexists.
    - apply in_map_iff in Hr0. destruct Hr0 as (l & <- & _). now eexists. }
  destruct H0 as (t & Ht). destruct r0 as [i v]. simpl in Ht. subst i.
  destruct v as [x|]; simpl.
  - destruct (Rlt_dec x MAX_SNOW_VAL) as [H1|H1]; simpl.
    + destruct (Rlt_dec (- MAX_SNOW_VAL) x) as [H2|H2]; [|now right].
      left. exists t, x. now repeat split.
    + now right.
  - now right.
Qed.

Lemma filter_index_at_most_one {A} (key : A -> option timestamp) k l :
  NoDup (map key l) ->
  (List.length (filter (fun r => index_eqb (key r) k) l) <= 1)%nat.
Proof.
  intros Hnd.
  destruct (find (fun r => index_eqb (key r) k) l) as [x|] eqn:E.
  - rewrite (filter_unique key k l x Hnd E). apply le_n.
  - rewrite filter_none; [simpl; lia|].
    intros x Hx. exact (find_none _ _ E x Hx).
Qed.

(** X19: a row of the merged sonar frame either has a timestamp and a snow
    depth strictly between -100 and 100, or has neither (index [NaT], depth
    missing): a reading out of bounds or missing is not dropped but blanked,
    and the duplicate removal keeps at most one such blank row. *)
Theorem concat_sonar_rows :
  forall files : list sonar_file,
    (forall r, In r (concat_sonar files) ->
       (exists t x, r = (Some t, Some x) /\ - MAX_SNOW_VAL < x < MAX_SNOW_VAL) \/
       r = (None, NaN)) /\
    (List.length (filter (fun r => index_eqb (fst r) None) (concat_sonar files)) <= 1)%nat.
Proof.
  intros files. split.
  - intros r Hr. rewrite concat_sonar_closed in Hr.
    apply in_drop_duplicated in Hr.
    apply in_flat_map in Hr. destruct Hr as (f & _ & Hrf).
    now apply (sonar_frame_rows f).
  - apply filter_index_at_most_one. apply concat_sonar_unique.
Qed.

(** X20: of a sonar file whose path holds [site_4], every line comes out
    with the snow depth 0, whatever was read, also where nothing was read or
    the reading is out of bounds. *)
Theorem sonar_frame_site_4 :
  forall file : sonar_file,
    contains "site_4" (sonar_path file) = true ->
    sonar_frame file = map (fun l => (Some (fst l), Some 0)) (sonar_lines file).
Proof.
  intros file H. unfold sonar_frame, where_. rewrite H.
  rewrite !map_map. apply map_ext. intros l. cbn [fst snd].
  unfold MAX_SNOW_VAL.
  rewrite flt_true by lra. cbn [fst snd]. rewrite fgt_true by lra. reflexivity.
Qed.

Lemma sonar_frame_site_4_witness :
  sonar_frame (mk_sonar_file "site_4/2021/hobo_1.csv" "snow depth, inches"
                 [(to_datetime 2021 1 5, Some 250); (to_datetime 2021 1 6, NaN)])
  = map (fun l => (Some (fst l), Some 0))
        [(to_datetime 2021 1 5, Some 250); (to_datetime 2021 1 6, NaN)].
Proof.
  apply (sonar_frame_site_4
           (mk_sonar_file "site_4/2021/hobo_1.csv" "snow depth, inches"
              [(to_datetime 2021 1 5, Some 250); (to_datetime 2021 1 6, NaN)])).
  reflexivity.
Defined.

(** *** The merged tilt frame *)

Lemma drop_duplicated_strictly_sorted (l : list tilt_row) :
  StronglySorted (fun a b => (t_index a <= t_index b)%Z) l ->
  StronglySorted (fun a b => (t_index a < t_index b)%Z)
    (drop_duplicated (fun r => Some (t_index r)) l).
Proof.
  induction 1 as [|a l Hs IH Hall]; simpl; constructor.
  - now apply filter_strongly_sorted.
  - rewrite Forall_forall in *. intros x Hx.
    apply filter_In in Hx. destruct Hx as [Hx Hne].
    apply in_drop_duplicated in Hx. specialize (Hall x Hx).
    simpl in Hne. apply negb_true_iff, Z.eqb_neq in Hne. lia.
Qed.

Lemma concat_tilt_step_sorted (df concat : list tilt_row) :
  StronglySorted (fun a b => (t_index a < t_index b)%Z)
    (drop_duplicated (fun r => Some (t_index r))
       (sort_index_by t_index (df ++ concat))).
Proof.
  apply drop_duplicated_strictly_sorted. apply sort_index_by_sorted.
Qed.

Lemma concat_tilt_sorted frames :
  StronglySorted (fun a b => (t_index a < t_index b)%Z) (concat_tilt frames).
Proof.
  unfold concat_tilt.
  assert (H : StronglySorted (fun a b => (t_index a < t_index b)%Z) (@nil tilt_row))
    by constructor.
  revert H. generalize (@nil tilt_row) as df.
  induction frames as [|f fs IH]; intros df H; simpl; [assumption|].
  apply IH. apply concat_tilt_step_sorted.
Qed.

(** X21: the merged tilt frame is in strictly ascending order of timestamp,
    whatever the order of the files and of their lines. *)
Theorem concat_tilt_strictly_ascending :
  forall frames : list (list tilt_row),
    StronglySorted Z.lt (map t_index (concat_tilt frames)).
Proof.
  intros frames. apply map_strongly_sorted. apply concat_tilt_sorted.
Qed.




(** *** The files of a site *)

Lemma sort_files_known site logger data sonar tilt :
  dict_find TILTS site = Some logger ->
  sort_files site data sonar tilt
  = Ok ((sonar ++ filter is_sonar data)%list,
        (tilt ++ filter (is_tilt logger) data)%list).
Proof.
  intros Hs. revert sonar tilt.
  induction data as [|file data IH]; intros sonar tilt; simpl.
  - now rewrite !app_nil_r.
  - unfold is_tilt, is_sonar.
    destruct (contains "hobo" file && contains "csv" file)%bool eqn:E1; simpl.
    + rewrite IH, <- app_assoc. reflexivity.
    + destruct (contains "maxsonar" file && contains "csv" file)%bool eqn:E2; simpl.
      * rewrite IH, <- app_assoc. reflexivity.
      * unfold getitem. rewrite Hs. simpl.
        destruct (contains logger file && contains "cleaned" file)%bool; simpl.
        -- rewrite IH, <- app_assoc. reflexivity.
        -- apply IH.
Qed.

Lemma sort_files_unknown site data sonar tilt :
  dict_find TILTS site = None ->
  (forall file, In file data -> is_sonar file = true) ->
  sort_files site data sonar tilt = Ok ((sonar ++ data)%list, tilt).
Proof.
  intros Hs. revert sonar.
  induction data as [|file data IH]; intros sonar Hall; simpl.
  - now rewrite app_nil_r.
  - assert (H : is_sonar file = true) by (apply Hall; now left).
    unfold is_sonar in H.
    destruct (contains "hobo" file && contains "csv" file)%bool eqn:E1.
    + rewrite IH, <- app_assoc; [reflexivity|]. intros f Hf. apply Hall. now right.
    + simpl in H. rewrite H.
      rewrite IH, <- app_assoc; [reflexivity|]. intros f Hf. apply Hall. now right.
Qed.

Lemma sort_files_key_error site data sonar tilt :
  dict_find TILTS site = None ->
  (exists file, In file data /\ is_sonar file = false) ->
  sort_files site data sonar tilt = Raise KeyError.
Proof.
  intros Hs. revert sonar.
  induction data as [|file data IH]; intros sonar (f & Hf & Hn); [destruct Hf|].
  simpl. destruct (is_sonar file) eqn:E.
  - assert (Hrest : exists f, In f data /\ is_sonar f = false).
    { destruct Hf as [<-|Hf]; [congruence|]. now exists f. }
    unfold is_sonar in E.
    destruct (contains "hobo" file && contains "csv" file)%bool eqn:E1.
    + now apply IH.
    + simpl in E. rewrite E. now apply IH.
  - unfold is_sonar in E. apply orb_false_iff in E. destruct E as [-> ->].
    unfold getitem. now rewrite Hs.
Qed.

(** X23: for a site of the table of loggers, [process_all] hands to
    [concat_sonar] the hobo and maxsonar csv files, in the order found, and
    to [concat_tilt] the cleaned files of the logger of the site that are
    not among them.  For any other site it fails with [KeyError] as soon as
    one file is not a sonar file, and hands all the files to [concat_sonar]
    otherwise. *)
Theorem process_all_lists :
  forall (site : string) (datasets : list (list string)),
    (forall logger,
        dict_find TILTS site = Some logger ->
        process_all site datasets
        = Ok (filter is_sonar (List.concat datasets),
              filter (is_tilt logger) (List.concat datasets))) /\
    (dict_find TILTS site = None ->
     (forall file, In file (List.concat datasets) -> is_sonar file = true) ->
     process_all site datasets = Ok (List.concat datasets, [])) /\
    (dict_find TILTS site = None ->
     (exists file, In file (List.concat datasets) /\ is_sonar file = false) ->
     process_all site datasets = Raise KeyError).
Proof.
  intros site datasets. unfold process_all. split; [|split].
  - intros logger Hs. now rewrite (sort_files_known site logger).
  - intros Hs Hall. now rewrite sort_files_unknown.
  - intros Hs Hex. now apply sort_files_key_error.
Qed.

End MergeMore.
